(** * AILibraryAssistent: intent classification and book recommendation

    A shallow embedding of [services/nlp_pipeline.py],
    [services/book_service.py], [services/recommendation_engine.py] and
    the assistant of [main.py], with the properties of the specification
    stated and settled on it.

    Modelling conventions.
    - A Python [str] is a sequence of code points.  The development works
      on the Latin-1 block U+0000..U+00FF, which holds every character of
      the lexical tables of the pipeline: a [str] is a [list ascii], each
      [ascii] standing for the code point of the same number.  The Unicode
      predicates of the interpreter ([str.lower], [str.isspace], the
      classes [\w], [\d], [\s] of [re]) are the ones of that block.
    - A Python [float] that holds a rating, a similarity ratio or a
      confidence is a rational number [Q]; the operations used on them
      (comparison, [min], one division, one addition) are monotone, so
      rounding does not change the comparisons made by the code.
    - A Python exception is a value [Raise e] of the type [result]. *)

From Stdlib Require Import List Bool Arith ZArith QArith Qminmax Qabs Lia Lqa.
From Stdlib Require Import Ascii String Permutation Sorted.
Import ListNotations.

Close Scope Q_scope.
Set Implicit Arguments.

(** ** Strings *)

Module Str.

Definition str := list ascii.

Definition code (c : ascii) : N := N_of_ascii c.

(** A literal of the source file.  The source is UTF-8: a character of
    U+0080..U+00FF is written there with the lead byte C2 or C3. *)
Fixpoint lit (s : string) : str :=
  match s with
  | EmptyString => []
  | String c s' =>
      let n := code c in
      if ((n =? 194) || (n =? 195))%N then
        match s' with
        | String d s'' => ascii_of_N ((n - 194) * 64 + code d) :: lit s''
        | EmptyString => [c]
        end
      else c :: lit s'
  end.

Definition between (lo hi n : N) : bool := ((lo <=? n) && (n <=? hi))%N.

(** [str.isspace] on one character. *)
Definition is_space (c : ascii) : bool :=
  let n := code c in
  between 9 13 n || between 28 32 n || (n =? 133)%N || (n =? 160)%N.

(** Decimal digits (category Nd): the class [\d]. *)
Definition is_decimal (c : ascii) : bool := between 48 57 (code c).

(** [str.isalnum] on one character: letters, decimal digits, and the
    characters with a digit or numeric value. *)
Definition is_alnum (c : ascii) : bool :=
  let n := code c in
  between 48 57 n || between 65 90 n || between 97 122 n
  || (n =? 170)%N || (n =? 178)%N || (n =? 179)%N || (n =? 181)%N
  || (n =? 185)%N || (n =? 186)%N || between 188 190 n
  || between 192 214 n || between 216 246 n || between 248 255 n.

(** The class [\w]. *)
Definition is_word (c : ascii) : bool := is_alnum c || (code c =? 95)%N.

(** Lower-casing of one character. *)
Definition to_lower (c : ascii) : ascii :=
  let n := code c in
  if between 65 90 n || (between 192 222 n && negb (n =? 215)%N)
  then ascii_of_N (n + 32) else c.

(** [s.lower()] *)
Definition lower (s : str) : str := map to_lower s.

Fixpoint lstrip (s : str) : str :=
  match s with
  | c :: s' => if is_space c then lstrip s' else s
  | [] => []
  end.

Definition rstrip (s : str) : str := rev (lstrip (rev s)).

(** [s.strip()] *)
Definition strip (s : str) : str := rstrip (lstrip s).

Fixpoint eqb (a b : str) : bool :=
  match a, b with
  | [], [] => true
  | x :: a', y :: b' => Ascii.eqb x y && eqb a' b'
  | _, _ => false
  end.

Fixpoint startswith (s p : str) : bool :=
  match p, s with
  | [], _ => true
  | x :: p', y :: s' => Ascii.eqb x y && startswith s' p'
  | _ :: _, [] => false
  end.

(** [p in s] on strings: [p] occurs in [s] as a substring. *)
Fixpoint contains (s p : str) : bool :=
  startswith s p ||
  match s with
  | [] => false
  | _ :: s' => contains s' p
  end.

(** [x in xs] on a list of strings. *)
Definition mem (x : str) (xs : list str) : bool := existsb (eqb x) xs.

(** [s[i:j]] for [0 <= i <= j]. *)
Definition slice (s : str) (i j : nat) : str := firstn (j - i) (skipn i s).

End Str.

Import Str.

(** ** Exceptions *)

Inductive exn : Type :=
| AttributeError   (* a method called on [None] *)
| TypeError
| ValueError
| ZeroDivisionError
| ReError.         (* [re.error]: the pattern does not compile *)

Inductive result (A : Type) : Type :=
| Ok (a : A)
| Raise (e : exn).

Arguments Ok {A} a.
Arguments Raise {A} e.

Definition bind {A B : Type} (x : result A) (f : A -> result B) : result B :=
  match x with
  | Ok a => f a
  | Raise e => Raise e
  end.

Notation "x <- e1 ;; e2" := (bind e1 (fun x => e2))
  (at level 61, e1 at next level, right associativity).

(** ** Regular expressions

    The fragment of the [re] syntax the pipeline uses: literals, the
    classes [.], [\w], [\d], [\s] and [[...]], the assertions [$] and [\b],
    groups (capturing or not), alternation, [?] on any item, and [+], [+?],
    [{n}], [{m,n}] on a one-character item.  Every search of the pipeline
    passes [re.IGNORECASE], which the matcher below builds in. *)

Module Re.

Inductive atom : Type :=
| ALit (c : ascii)
| AAny
| AWord
| ADigit
| ASpace
| ASet (cs : list ascii).

Inductive regex : Type :=
| REmpty
| RAtom (a : atom)
| RRep (a : atom) (lo : nat) (hi : option nat) (greedy : bool)
| ROpt (r : regex)
| RSeq (r1 r2 : regex)
| RAlt (r1 r2 : regex)
| RGroup (n : nat) (r : regex)
| REnd
| RWordB.

(** *** Compilation of a pattern *)

Definition digit_val (c : ascii) : nat := N.to_nat (code c - 48).

Fixpoint read_nat (acc : nat) (s : str) : nat * str :=
  match s with
  | c :: s' => if is_decimal c then read_nat (10 * acc + digit_val c) s' else (acc, s)
  | [] => (acc, s)
  end.

Fixpoint read_set (s : str) : option (list ascii * str) :=
  match s with
  | [] => None
  | c :: s' =>
      if Ascii.eqb c "]" then Some ([], s')
      else if Ascii.eqb c "\" || Ascii.eqb c "-" || Ascii.eqb c "^" || Ascii.eqb c "[" then None
      else match read_set s' with
           | Some (cs, r) => Some (c :: cs, r)
           | None => None
           end
  end.

Definition is_meta (c : ascii) : bool :=
  existsb (Ascii.eqb c) ["*"; "+"; "?"; "{"; "}"; "("; ")"; "|"; "^"; "["; "]"]%char.

Definition rep_of (base : regex) (lo : nat) (hi : option nat) (greedy : bool)
  : option regex :=
  match base with
  | RAtom a => Some (RRep a lo hi greedy)
  | _ => None
  end.

(** The quantifier that follows an item, if any. *)
Definition quantified (base : regex) (s : str) : option (regex * str) :=
  match s with
  | "?"%char :: "?"%char :: _ => None
  | "?"%char :: s' => Some (ROpt base, s')
  | "+"%char :: "?"%char :: s' =>
      match rep_of base 1 None false with Some r => Some (r, s') | None => None end
  | "+"%char :: s' =>
      match rep_of base 1 None true with Some r => Some (r, s') | None => None end
  | "{"%char :: (d :: _) as s' =>
      if is_decimal d then
        let '(lo, s1) := read_nat 0 s' in
        match s1 with
        | "}"%char :: s2 =>
            match rep_of base lo (Some lo) true with Some r => Some (r, s2) | None => None end
        | ","%char :: (e :: _) as s2 =>
            if is_decimal e then
              let '(hi, s3) := read_nat 0 s2 in
              match s3 with
              | "}"%char :: s4 =>
                  if hi <? lo then None else
                  match rep_of base lo (Some hi) true with
                  | Some r => Some (r, s4)
                  | None => None
                  end
              | _ => None
              end
            else None
        | _ => None
        end
      else None
  | _ => Some (base, s)
  end.

(** [parse_alt], [parse_seq] and [parse_item] return the expression read,
    what is left of the pattern, and the number of the next group. *)
Fixpoint parse_alt (fuel : nat) (s : str) (g : nat) : option (regex * str * nat) :=
  match fuel with
  | O => None
  | S f =>
      match parse_seq f s g with
      | Some (r1, "|"%char :: s1, g1) =>
          match parse_alt f s1 g1 with
          | Some (r2, s2, g2) => Some (RAlt r1 r2, s2, g2)
          | None => None
          end
      | other => other
      end
  end
with parse_seq (fuel : nat) (s : str) (g : nat) : option (regex * str * nat) :=
  match fuel with
  | O => None
  | S f =>
      match s with
      | [] => Some (REmpty, s, g)
      | c :: _ =>
          if Ascii.eqb c "|" || Ascii.eqb c ")" then Some (REmpty, s, g)
          else
            match parse_item f s g with
            | Some (r1, s1, g1) =>
                match parse_seq f s1 g1 with
                | Some (REmpty, s2, g2) => Some (r1, s2, g2)
                | Some (r2, s2, g2) => Some (RSeq r1 r2, s2, g2)
                | None => None
                end
            | None => None
            end
      end
  end
with parse_item (fuel : nat) (s : str) (g : nat) : option (regex * str * nat) :=
  match fuel with
  | O => None
  | S f =>
      let quant (b : option (regex * str * nat)) :=
        match b with
        | Some (base, s1, g1) =>
            match quantified base s1 with
            | Some (r, s2) => Some (r, s2, g1)
            | None => None
            end
        | None => None
        end in
      match s with
      | [] => None
      | "("%char :: "?"%char :: ":"%char :: s1 =>
          match parse_alt f s1 g with
          | Some (r, ")"%char :: s2, g2) => quant (Some (r, s2, g2))
          | _ => None
          end
      | "("%char :: "?"%char :: _ => None
      | "("%char :: s1 =>
          match parse_alt f s1 (S g) with
          | Some (r, ")"%char :: s2, g2) => quant (Some (RGroup g r, s2, g2))
          | _ => None
          end
      | "["%char :: s1 =>
          match read_set s1 with
          | Some (c :: cs, s2) => quant (Some (RAtom (ASet (c :: cs)), s2, g))
          | _ => None
          end
      | "\"%char :: c :: s1 =>
          if Ascii.eqb c "w" then quant (Some (RAtom AWord, s1, g))
          else if Ascii.eqb c "d" then quant (Some (RAtom ADigit, s1, g))
          else if Ascii.eqb c "s" then quant (Some (RAtom ASpace, s1, g))
          else if Ascii.eqb c "b" then quant (Some (RWordB, s1, g))
          else if is_alnum c then None
          else quant (Some (RAtom (ALit c), s1, g))
      | "\"%char :: [] => None
      | "."%char :: s1 => quant (Some (RAtom AAny, s1, g))
      | "$"%char :: s1 => quant (Some (REnd, s1, g))
      | c :: s1 => if is_meta c then None else quant (Some (RAtom (ALit c), s1, g))
      end
  end.

(** [re.compile(pattern)]: the expression and the number of its groups.
    Between two characters read the parser descends at most three
    levels, so the bound below is never reached. *)
Definition compile (pattern : str) : option (regex * nat) :=
  match parse_alt (3 * List.length pattern + 3) pattern 1 with
  | Some (r, [], g) => Some (r, g - 1)
  | _ => None
  end.

(** *** Matching *)

(** One character against a one-character item, under [re.IGNORECASE]:
    a literal and a set compare lower-cased characters. *)
Definition atom_ok (a : atom) (c : ascii) : bool :=
  match a with
  | ALit x => Ascii.eqb (to_lower c) (to_lower x)
  | AAny => negb (code c =? 10)%N
  | AWord => is_word c
  | ADigit => is_decimal c
  | ASpace => is_space c
  | ASet cs => existsb (fun x => Ascii.eqb (to_lower c) (to_lower x)) cs
  end.

Definition word_opt (c : option ascii) : bool :=
  match c with
  | Some x => is_word x
  | None => false
  end.

(** [\b]: exactly one of the characters around the position is a word
    character (the ends of the text count as non-word). *)
Definition at_boundary (prev : option ascii) (s : str) : bool :=
  xorb (word_opt prev) (word_opt (hd_error s)).

(** [$]: the end of the text, or just before a newline that ends it. *)
Definition at_end (s : str) : bool :=
  match s with
  | [] => true
  | [c] => (code c =? 10)%N
  | _ => false
  end.

(** The groups set so far, the last one set first. *)
Definition caps := list (nat * (nat * nat)).

(** A continuation takes the position reached, the character before it,
    the text left and the groups, and gives the end of the match. *)
Definition cont := nat -> option ascii -> str -> caps -> option (nat * caps).

Definition more_allowed (hi : option nat) : bool :=
  match hi with
  | Some O => false
  | _ => true
  end.

Definition dec_hi (hi : option nat) : option nat :=
  match hi with
  | Some n => Some (pred n)
  | None => None
  end.

(** [a{lo,hi}], greedy or lazy, then [k]. *)
Fixpoint rep_match (a : atom) (greedy : bool) (k : cont) (cs : caps)
    (lo : nat) (hi : option nat) (pos : nat) (prev : option ascii) (s : str)
    {struct s} : option (nat * caps) :=
  let more (_ : unit) :=
    match s with
    | c :: s' =>
        if atom_ok a c && more_allowed hi
        then rep_match a greedy k cs (pred lo) (dec_hi hi) (S pos) (Some c) s'
        else None
    | [] => None
    end in
  let stop (_ : unit) :=
    match lo with
    | O => k pos prev s cs
    | S _ => None
    end in
  if greedy then
    match more tt with
    | Some r => Some r
    | None => stop tt
    end
  else
    match stop tt with
    | Some r => Some r
    | None => more tt
    end.

(** The backtracking matcher: [rmatch r k pos prev s cs] matches [r] at the
    head of [s], which starts at position [pos] of the text after the
    character [prev], then runs [k]; alternatives are tried in the order
    of the [re] engine. *)
Fixpoint rmatch (r : regex) (k : cont) (pos : nat) (prev : option ascii)
    (s : str) (cs : caps) {struct r} : option (nat * caps) :=
  match r with
  | REmpty => k pos prev s cs
  | RAtom a =>
      match s with
      | c :: s' => if atom_ok a c then k (S pos) (Some c) s' cs else None
      | [] => None
      end
  | RRep a lo hi greedy => rep_match a greedy k cs lo hi pos prev s
  | ROpt r' =>
      match rmatch r' k pos prev s cs with
      | Some x => Some x
      | None => k pos prev s cs
      end
  | RSeq r1 r2 => rmatch r1 (rmatch r2 k) pos prev s cs
  | RAlt r1 r2 =>
      match rmatch r1 k pos prev s cs with
      | Some x => Some x
      | None => rmatch r2 k pos prev s cs
      end
  | RGroup n r' =>
      rmatch r' (fun p pv s' cs' => k p pv s' ((n, (pos, p)) :: cs')) pos prev s cs
  | REnd => if at_end s then k pos prev s cs else None
  | RWordB => if at_boundary prev s then k pos prev s cs else None
  end.

Definition accept : cont := fun p _ _ cs => Some (p, cs).

(** A match at the position [pos] exactly. *)
Definition match_here (r : regex) (pos : nat) (prev : option ascii) (s : str)
  : option (nat * caps) :=
  rmatch r accept pos prev s [].

(** The first position from [pos] on where [r] matches. *)
Fixpoint search_from (r : regex) (pos : nat) (prev : option ascii) (s : str)
  : option (nat * nat * caps) :=
  match match_here r pos prev s with
  | Some (e, cs) => Some (pos, e, cs)
  | None =>
      match s with
      | c :: s' => search_from r (S pos) (Some c) s'
      | [] => None
      end
  end.

(** The match object. *)
Record Match : Type := mkMatch {
  m_string : str;
  m_start : nat;
  m_end : nat;
  m_caps : caps;
  m_ngroups : nat
}.

Fixpoint lookup (n : nat) (cs : caps) : option (nat * nat) :=
  match cs with
  | [] => None
  | (i, span) :: cs' => if i =? n then Some span else lookup n cs'
  end.

(** [m.group(0)] *)
Definition group0 (m : Match) : str := slice (m_string m) (m_start m) (m_end m).

(** [m.group(n)] for a group [n >= 1] of the pattern: [None] when the
    group took no part in the match. *)
Definition group (m : Match) (n : nat) : option str :=
  match lookup n (m_caps m) with
  | Some (i, j) => Some (slice (m_string m) i j)
  | None => None
  end.

(** [re.search(pattern, text, re.IGNORECASE)] *)
Definition search (pattern text : str) : result (option Match) :=
  match compile pattern with
  | None => Raise ReError
  | Some (r, n) =>
      match search_from r 0 None text with
      | Some (b, e, cs) => Ok (Some (mkMatch text b e cs n))
      | None => Ok None
      end
  end.

(** [re.escape(word)] compiled between two [\b]: the characters of
    [word], each one a literal. *)
Fixpoint literal (word : str) : regex :=
  match word with
  | [] => REmpty
  | [c] => RAtom (ALit c)
  | c :: w => RSeq (RAtom (ALit c)) (literal w)
  end.

Definition word_pattern (word : str) : regex :=
  RSeq RWordB (RSeq (literal word) RWordB).

(** [re.sub(r, repl, text, flags=re.IGNORECASE)] for an expression that
    matches no empty string: the matches are taken from left to right,
    each search starting where the previous match ended; [skip] counts
    the characters of the current match still to drop. *)
Fixpoint sub_from (r : regex) (repl : str) (skip : nat) (pos : nat)
    (prev : option ascii) (s : str) {struct s} : str :=
  match skip with
  | S n =>
      match s with
      | c :: s' => sub_from r repl n (S pos) (Some c) s'
      | [] => []
      end
  | O =>
      match match_here r pos prev s with
      | Some (e, _) =>
          match s with
          | c :: s' =>
              if e =? pos then repl ++ c :: sub_from r repl 0 (S pos) (Some c) s'
              else repl ++ sub_from r repl (e - pos - 1) (S pos) (Some c) s'
          | [] => repl
          end
      | None =>
          match s with
          | c :: s' => c :: sub_from r repl 0 (S pos) (Some c) s'
          | [] => []
          end
      end
  end.

Definition sub (r : regex) (repl text : str) : str :=
  sub_from r repl 0 0 None text.

End Re.

(** ** Lexical tables of [NLPPipeline.__init__]

    A [dict] that the code iterates is an association list in the order of
    its literal; no literal below repeats a key. *)

Module Tables.

Definition intent_patterns : list (string * list str) :=
  [ ("recommend_by_genre"%string, map lit
      [ "gosto de livros de (\w+)";
        "recomend[ae] livros de (\w+)";
        "livros do g[êe]nero (\w+)";
        "quero ler (\w+)";
        "me interessam? (\w+)";
        "curto (\w+)";
        "adoro (\w+)";
        "gosto de (ficção científica|literatura brasileira)";
        "quero ler (ficção científica|literatura brasileira)";
        "livros de (ficção científica|literatura brasileira)";
        "recomend[ae] (ficção científica|literatura brasileira)";
        "algo de (\w+)";
        "livros (\w+)";
        "estou procurando (\w+)";
        "queria (\w+)";
        "busco (\w+)";
        "preciso de (\w+)" ]%string);
    ("recommend_by_author"%string, map lit
      [ "livros do autor (.+?)(?:\s|$)";
        "obras de (.+?)(?:\s|$)";
        "mostre livros de (.+?)(?:\s|$)";
        "autor (.+?)(?:\s|$)";
        "escrito por (.+?)(?:\s|$)";
        "(.+?) escreveu";
        "tem (.+?) na biblioteca";
        "conhece (.+?)?";
        "já leu (.+?)?" ]%string);
    ("recommend_similar"%string, map lit
      [ "li o livro (.+?) e gostei";
        "gostei do livro (.+?)";
        "similar ao (.+?)";
        "parecido com (.+?)";
        "baseado em (.+?)";
        "como (.+?)";
        "estilo (.+?)";
        "no mesmo tom de (.+?)";
        "que lembre (.+?)" ]%string);
    ("books_by_year"%string, map lit
      [ "livros de (\d{4})";
        "publicados em (\d{4})";
        "do ano (\d{4})";
        "lan[çc]ados em (\d{4})";
        "dos anos (\d{4})";
        "da década de (\d{4})";
        "século (\d{1,2})" ]%string);
    ("bestsellers"%string, map lit
      [ "bestsellers?";
        "mais vendidos";
        "livros famosos";
        "populares";
        "sucessos";
        "consagrados";
        "aclamados";
        "premiados" ]%string);
    ("non_bestsellers"%string, map lit
      [ "n[ãa]o bestsellers?";
        "menos conhecidos";
        "livros raros";
        "indies?";
        "independentes";
        "cult";
        "underground";
        "nicho" ]%string);
    ("recommend_by_mood"%string, map lit
      [ "estou (me sentindo )?(?:muito )?(triste|feliz|estressado|ansioso|deprimido|animado|bem|mal)";
        "me sentindo (triste|feliz|estressado|ansioso|deprimido|animado|bem|mal|para baixo)";
        "preciso de algo (?:que me )?(anime|relaxe|emocione|inspire|divirta)";
        "quero (chorar|rir|me emocionar|relaxar|me inspirar)";
        "algo (emocionante|relaxante|triste|divertido|inspirador|leve|pesado)";
        "humor (triste|feliz|estressado|ansioso|animado)";
        "dia (ruim|bom|difícil|estressante)";
        "preciso (relaxar|me animar|chorar|rir)";
        "estou (nostálgico|melancólico|reflexivo|contemplativo)";
        "preciso (refletir|pensar|filosofar|meditar)";
        "quero algo (profundo|superficial|intelectual|simples)" ]%string);
    ("recommend_by_occasion"%string, map lit
      [ "vou (viajar|para a praia|de férias|trabalhar)";
        "para ler (na praia|no avião|antes de dormir|no trabalho)";
        "algo para (relaxar|passar o tempo|viagem|férias)";
        "leitura (leve|rápida|para viagem|de férias)";
        "para (estudar|aprender|crescer|evoluir)";
        "no (metrô|ônibus|trem|transporte)";
        "entre (aulas|reuniões|compromissos)" ]%string) ].

Definition pairs (l : list (string * string)) : list (str * str) :=
  map (fun kv => (lit (fst kv), lit (snd kv))) l.

Definition mood_to_genre : list (str * str) := pairs
  [ ("triste", "Romance"); ("deprimido", "Autoajuda"); ("mal", "Romance");
    ("para baixo", "Autoajuda"); ("desanimado", "Autoajuda");
    ("perdido", "Filosofia"); ("confuso", "Filosofia"); ("cansado", "Romance");
    ("nostálgico", "Romance"); ("melancólico", "Romance");
    ("feliz", "Fantasia"); ("animado", "Thriller"); ("bem", "História");
    ("motivado", "Biografia"); ("empolgado", "Fantasia");
    ("confiante", "Thriller"); ("determinado", "Biografia");
    ("reflexivo", "Filosofia"); ("contemplativo", "Filosofia");
    ("anime", "Romance"); ("relaxe", "Romance"); ("emocione", "Romance");
    ("inspire", "Biografia"); ("divirta", "Fantasia"); ("chorar", "Romance");
    ("rir", "Romance"); ("relaxar", "Romance"); ("refletir", "Filosofia");
    ("pensar", "Filosofia"); ("filosofar", "Filosofia"); ("meditar", "Filosofia");
    ("emocionante", "Thriller"); ("relaxante", "Romance");
    ("divertido", "Fantasia"); ("inspirador", "Biografia"); ("leve", "Romance");
    ("pesado", "Filosofia"); ("profundo", "Filosofia");
    ("superficial", "Romance"); ("intelectual", "Filosofia");
    ("simples", "Romance") ]%string.

Definition occasion_to_genre : list (str * str) := pairs
  [ ("viajar", "Romance"); ("praia", "Romance"); ("férias", "Fantasia");
    ("fim de semana", "Fantasia"); ("feriado", "Fantasia");
    ("tempo livre", "Romance"); ("relaxar", "Romance");
    ("trabalhar", "Autoajuda"); ("trabalho", "Autoajuda");
    ("estudar", "História"); ("aprender", "História"); ("crescer", "Autoajuda");
    ("evoluir", "Biografia"); ("avião", "Mistério"); ("metrô", "Thriller");
    ("ônibus", "Romance"); ("trem", "Mistério"); ("transporte", "Romance");
    ("dormir", "Romance"); ("aulas", "Filosofia"); ("reuniões", "Autoajuda");
    ("compromissos", "Romance"); ("viagem", "Mistério") ]%string.

Definition lists (l : list (string * list string)) : list (str * list str) :=
  map (fun kv => (lit (fst kv), map lit (snd kv))) l.

Definition genre_synonyms : list (str * list str) := lists
  [ ("terror", ["horror"; "medo"; "assombração"; "suspense"; "assustador";
                "macabro"; "sombrio"; "gótico"]);
    ("romance", ["amor"; "romântico"; "paixão"; "amoroso"; "sentimental";
                 "emocional"; "tocante"; "dramático"]);
    ("thriller", ["suspense"; "ação"; "tensão"; "mistério"; "emocionante";
                  "adrenalina"; "investigação"]);
    ("ficção científica", ["sci-fi"; "futurista"; "espacial"; "ficção";
                           "científica"; "futurismo"; "distopia"; "cyberpunk"]);
    ("fantasia", ["magia"; "épico"; "medieval"; "mágico"; "fantástico";
                  "aventura"; "mitológico"; "lendário"]);
    ("autoajuda", ["auto-ajuda"; "desenvolvimento"; "pessoal"; "motivação";
                   "sucesso"; "crescimento"; "coaching"; "liderança"]);
    ("história", ["histórico"; "passado"; "civilização"; "humanidade";
                  "histórica"; "época"; "guerra"; "biografia histórica"]);
    ("filosofia", ["filosófico"; "reflexão"; "pensamento"; "existencial";
                   "reflexivo"; "profundo"; "intelectual"; "contemplativo"]);
    ("biografia", ["biográfico"; "vida"; "personalidade"; "famoso";
                   "autobiografia"; "memórias"; "trajetória"; "história de vida"]);
    ("mistério", ["misterioso"; "enigma"; "detetive"; "investigação"; "crime";
                  "policial"; "suspense"; "noir"]);
    ("literatura brasileira", ["brasileiro"; "brasil"; "nacional"; "literatura";
                               "brasiliense"; "tupiniquim"; "verde-amarelo"]) ]%string.

Definition famous_authors : list (str * list str) := lists
  [ ("stephen king", ["king"; "stephen"; "steve king"]);
    ("dan brown", ["brown"; "dan"; "daniel brown"]);
    ("j.k. rowling", ["rowling"; "jk rowling"; "joanne rowling"]);
    ("j.r.r. tolkien", ["tolkien"; "jrr tolkien"; "john tolkien"]);
    ("agatha christie", ["christie"; "agatha"]);
    ("arthur conan doyle", ["doyle"; "conan doyle"; "arthur doyle"]);
    ("george orwell", ["orwell"; "george"]);
    ("isaac asimov", ["asimov"; "isaac"]);
    ("frank herbert", ["herbert"; "frank"]);
    ("h.g. wells", ["wells"; "hg wells"; "herbert wells"]);
    ("edgar allan poe", ["poe"; "edgar poe"; "allan poe"]);
    ("franz kafka", ["kafka"; "franz"]);
    ("albert camus", ["camus"; "albert"]);
    ("gabriel garcía márquez", ["márquez"; "garcia marquez"; "gabriel garcia"]);
    ("machado de assis", ["machado"; "assis"; "machado assis"]);
    ("paulo coelho", ["coelho"; "paulo"]);
    ("yuval noah harari", ["harari"; "yuval"; "noah harari"]) ]%string.

(** [d.get(key, default)] *)
Fixpoint dict_get (d : list (str * str)) (key default : str) : str :=
  match d with
  | [] => default
  | (k, v) :: d' => if Str.eqb k key then v else dict_get d' key default
  end.

End Tables.

Import Tables.

(** ** The classification pipeline ([services/nlp_pipeline.py]) *)

Module NLP.

Inductive value : Type :=
| VStr (s : str)
| VInt (z : Z).

(** The dataclass [Intent]; [entities] lists the items of the dict in the
    order of their insertion. *)
Record Intent : Type := mkIntent {
  name : string;
  confidence : Q;
  entities : list (string * value)
}.

(** [a < b] on floats. *)
Definition Qltb (a b : Q) : bool := negb (Qle_bool b a).

(** [min(a, b)]: the first argument unless the second is smaller. *)
Definition py_min (a b : Q) : Q := if Qltb b a then b else a.

(** [_expand_synonyms]: every synonym of every genre, in table order, is
    replaced by the genre where it stands as a whole word.  The pattern is
    [\b] + [re.escape(synonym)] + [\b]; no genre holds a backslash, so the
    replacement template is the genre itself. *)
Definition replace_synonyms (main_genre : str) (synonyms : list str) (text : str) : str :=
  fold_left (fun t synonym => Re.sub (Re.word_pattern synonym) main_genre t)
            synonyms text.

Definition expand_with (table : list (str * list str)) (text : str) : str :=
  fold_left (fun t entry => replace_synonyms (fst entry) (snd entry) t) table text.

Definition _expand_synonyms (text : str) : str := expand_with genre_synonyms text.

(** [_calculate_confidence]: the [try] block catches the division by a
    zero length and a pattern that does not compile; both fall through
    to the last [return 0.3], as a search without match does. *)
Definition _calculate_confidence (text pattern : str) : Q :=
  match Re.search pattern text with
  | Ok (Some m) =>
      let match_length := List.length (Re.group0 m) in
      let text_length := List.length text in
      if text_length =? 0 then 0.3%Q
      else
        let base_confidence :=
          py_min 0.95 ((inject_Z (Z.of_nat match_length) / inject_Z (Z.of_nat text_length)) * 2)%Q in
        let base_confidence :=
          if Qltb (inject_Z (Z.of_nat (Re.m_start m)))
                  (inject_Z (Z.of_nat text_length) * 0.3)%Q
          then (base_confidence + 0.1)%Q else base_confidence in
        py_min base_confidence 0.95
  | _ => 0.3%Q
  end.

(** *** [difflib.SequenceMatcher(None, a, b).ratio()]

    No junk predicate is given, and the "popular element" heuristic only
    applies to a second sequence of 200 elements or more, so the matcher
    is the plain one. *)

(** The row [newj2len] for the element [ai] of [a]: at [j], one more than
    the previous row at [j-1] when [b[j] == ai], and no entry (zero)
    otherwise. *)
Fixpoint next_row (ai : ascii) (b : str) (diag : nat) (old : list nat) : list nat :=
  match b with
  | [] => []
  | bj :: b' =>
      (if Ascii.eqb ai bj then S diag else 0) :: next_row ai b' (hd 0 old) (tl old)
  end.

(** The update of [(besti, bestj, bestsize)] over one row, [j] ascending. *)
Fixpoint scan_row (i j : nat) (row : list nat) (best : nat * nat * nat) : nat * nat * nat :=
  match row with
  | [] => best
  | k :: row' =>
      let '(_, _, bestsize) := best in
      scan_row i (S j) row' (if bestsize <? k then (i + 1 - k, j + 1 - k, k) else best)
  end.

Fixpoint longest_from (a b : str) (i : nat) (old : list nat) (best : nat * nat * nat)
  : nat * nat * nat :=
  match a with
  | [] => best
  | ai :: a' =>
      let row := next_row ai b 0 old in
      longest_from a' b (S i) row (scan_row i 0 row best)
  end.

(** [find_longest_match] over the whole of [a] and [b]: the block
    [(i, j, k)] with [a[i:i+k] == b[j:j+k]], [k] maximal, then [i]
    minimal, then [j] minimal. *)
Definition find_longest_match (a b : str) : nat * nat * nat :=
  longest_from a b 0 [] (0, 0, 0).

(** The total size of the blocks of [get_matching_blocks]: the longest
    block, then the blocks to its left and to its right.  [fuel] bounds
    the depth of the recursion, which the length of [a] bounds. *)
Fixpoint matching_size (fuel : nat) (a b : str) : nat :=
  match fuel with
  | O => 0
  | S f =>
      let '(i, j, k) := find_longest_match a b in
      if k =? 0 then 0
      else
        k
        + (if (0 <? i) && (0 <? j)
           then matching_size f (firstn i a) (firstn j b) else 0)
        + (if (i + k <? List.length a) && (j + k <? List.length b)
           then matching_size f (skipn (i + k) a) (skipn (j + k) b) else 0)
  end.

(** [ratio()]: [2.0 * matches / length], and [1.0] for two empty
    sequences. *)
Definition ratio (a b : str) : Q :=
  let length := List.length a + List.length b in
  if length =? 0 then 1%Q
  else (2 * inject_Z (Z.of_nat (matching_size (List.length a) a b))
        / inject_Z (Z.of_nat length))%Q.

(** The similarity loop of [_find_best_author_match]. *)
Fixpoint best_by_ratio (author_lower : str) (all_authors : list str)
    (best_match : option str) (best_ratio : Q) : option str :=
  match all_authors with
  | [] => best_match
  | author :: rest =>
      let r := ratio author_lower author in
      if Qltb best_ratio r && Qltb 0.7%Q r
      then best_by_ratio author_lower rest (Some author) r
      else best_by_ratio author_lower rest best_match best_ratio
  end.

(** The loop over the variations: the first full name that lists the
    input among its variations. *)
Fixpoint by_variation (author_lower : str) (table : list (str * list str)) : option str :=
  match table with
  | [] => None
  | (full_name, variations) :: rest =>
      if mem author_lower variations then Some full_name
      else by_variation author_lower rest
  end.

Definition find_author_in (table : list (str * list str)) (author_input : str) : option str :=
  let author_lower := strip (lower author_input) in
  if mem author_lower (map fst table) then Some author_lower
  else
    match by_variation author_lower table with
    | Some full_name => Some full_name
    | None => best_by_ratio author_lower (map fst table) None 0%Q
    end.

Definition _find_best_author_match (author_input : str) : option str :=
  find_author_in famous_authors author_input.

(** *** [process] *)

Definition unknown : Intent := mkIntent "unknown" 0%Q [].

(** [match.group(1).strip()]: [AttributeError] when the group took no
    part in the match. *)
Definition group1_strip (m : Re.Match) : result str :=
  match Re.group m 1 with
  | Some g => Ok (strip g)
  | None => Raise AttributeError
  end.

(** [int(s)] on the digits a [\d] group captured; [int(None)] is a
    [TypeError]. *)
Definition py_int (s : option str) : result Z :=
  match s with
  | None => Raise TypeError
  | Some [] => Raise ValueError
  | Some ds =>
      if forallb is_decimal ds
      then Ok (fold_left (fun acc d => (10 * acc + Z.of_N (code d - 48))%Z) ds 0%Z)
      else Raise ValueError
  end.

(** [match.group(1).strip() if match.group(1) else match.group(0).strip()] *)
Definition group1_or_whole (m : Re.Match) : str :=
  match Re.group m 1 with
  | Some (c :: g) => strip (c :: g)
  | _ => strip (Re.group0 m)
  end.

Definition name_in (n : string) (l : list string) : bool := existsb (String.eqb n) l.

(** The body of [if match.groups(): ...]. *)
Definition extract_entities (intent_name : string) (text : str) (m : Re.Match)
  : result (list (string * value)) :=
  if name_in intent_name ["recommend_by_genre"; "recommend_similar"]%string then
    target <- group1_strip m ;;
    Ok [("target"%string, VStr target)]
  else if String.eqb intent_name "recommend_by_author" then
    author_name <- group1_strip m ;;
    match _find_best_author_match author_name with
    | Some normalized_author => Ok [("author"%string, VStr normalized_author)]
    | None => Ok [("author"%string, VStr author_name)]
    end
  else if String.eqb intent_name "books_by_year" then
    let year_str := Re.group m 1 in
    if contains text (lit "século") then
      century <- py_int year_str ;;
      Ok [("year"%string, VInt ((century - 1) * 100 + 50)%Z)]
    else
      year <- py_int year_str ;;
      Ok [("year"%string, VInt year)]
  else if String.eqb intent_name "recommend_by_mood" then
    let mood_word := group1_or_whole m in
    let target_genre := dict_get mood_to_genre mood_word (lit "Romance") in
    Ok [("mood"%string, VStr mood_word); ("target"%string, VStr target_genre)]
  else if String.eqb intent_name "recommend_by_occasion" then
    let occasion_word := group1_or_whole m in
    let target_genre := dict_get occasion_to_genre occasion_word (lit "Romance") in
    Ok [("occasion"%string, VStr occasion_word); ("target"%string, VStr target_genre)]
  else Ok [].

(** What [process] does once [pattern] has matched. *)
Definition on_match (intent_name : string) (pattern text : str) (m : Re.Match)
  : result Intent :=
  let confidence := _calculate_confidence text pattern in
  entities <- (if 0 <? Re.m_ngroups m then extract_entities intent_name text m
               else Ok []) ;;
  Ok (mkIntent intent_name confidence entities).

(** The inner loop: the patterns of one intent, in order; [None] when
    none of them matches. *)
Fixpoint try_patterns (intent_name : string) (patterns : list str) (text : str)
  : result (option Intent) :=
  match patterns with
  | [] => Ok None
  | pattern :: rest =>
      found <- Re.search pattern text ;;
      match found with
      | Some m => i <- on_match intent_name pattern text m ;; Ok (Some i)
      | None => try_patterns intent_name rest text
      end
  end.

(** The outer loop: the intents, in order. *)
Fixpoint try_intents (table : list (string * list str)) (text : str) : result Intent :=
  match table with
  | [] => Ok unknown
  | (intent_name, patterns) :: rest =>
      found <- try_patterns intent_name patterns text ;;
      match found with
      | Some i => Ok i
      | None => try_intents rest text
      end
  end.

(** The text the patterns are matched against. *)
Definition prepare (text : str) : str := _expand_synonyms (strip (lower text)).

Definition process (text : str) : result Intent :=
  try_intents intent_patterns (prepare text).

End NLP.

(** ** The catalog ([models/books.py], [services/book_service.py]) *)

Module Catalog.

Record Book : Type := mkBook {
  id : Z;
  title : str;
  author : str;
  genre : str;
  year : Z;
  bestseller : bool;
  description : str;
  rating : Q
}.

Section BookService.

(** [self.books] *)
Variable books : list Book.

Definition get_all_books : list Book := books.

(** [for book in self.books: if book.id == book_id: return book] *)
Definition get_book_by_id (book_id : Z) : option Book :=
  find (fun book => (id book =? book_id)%Z) books.

Definition get_books_by_genre (g : str) : list Book :=
  filter (fun book => Str.eqb (lower (genre book)) (lower g)) books.

Definition get_books_by_author (a : str) : list Book :=
  filter (fun book => contains (lower (author book)) (lower a)) books.

Definition get_books_by_year (y : Z) : list Book :=
  filter (fun book => (year book =? y)%Z) books.

Definition get_bestsellers (is_bestseller : bool) : list Book :=
  filter (fun book => Bool.eqb (bestseller book) is_bestseller) books.

End BookService.

(** [for book in self.books: if title.lower() in book.title.lower(): return book] *)
Fixpoint find_book_by_title (books : list Book) (t : str) : option Book :=
  match books with
  | [] => None
  | book :: rest =>
      if contains (lower (title book)) (lower t) then Some book
      else find_book_by_title rest t
  end.

End Catalog.

(** ** The recommendation engine ([services/recommendation_engine.py]) *)

Module Engine.

Import Catalog.
Import NLP.

(** [sorted(books, key=lambda x: x.rating, reverse=True)]: the sort is
    stable, and so is its reverse form: books of equal rating keep the
    order they had.  [insert_by_rating] puts a book, which stood before
    the books of [l], after the books of [l] of a higher rating. *)
Fixpoint insert_by_rating (x : Book) (l : list Book) : list Book :=
  match l with
  | [] => [x]
  | y :: l' =>
      if Qltb (rating x) (rating y) then y :: insert_by_rating x l' else x :: l
  end.

Definition sorted_by_rating (l : list Book) : list Book :=
  fold_right insert_by_rating [] l.

(** [l[:limit]]: a negative [limit] counts from the end. *)
Definition take {A : Type} (limit : Z) (l : list A) : list A :=
  if (0 <=? limit)%Z then firstn (Z.to_nat limit) l
  else firstn (List.length l - Z.to_nat (- limit)) l.

Section RecommendationEngine.

(** The books of [self.book_service]. *)
Variable books : list Book.

Definition recommend_by_genre (g : str) (limit : Z) : list Book :=
  take limit (sorted_by_rating (get_books_by_genre books g)).

Definition recommend_by_author (a : str) (limit : Z) : list Book :=
  take limit (sorted_by_rating (get_books_by_author books a)).

(** [recommend_similar_books] from the reference book on. *)
Definition similar_to (target_book : Book) (limit : Z) : list Book :=
  let similar_books := get_books_by_genre books (genre target_book) in
  let similar_books :=
    filter (fun book => negb (id book =? id target_book)%Z) similar_books in
  let same_author_books :=
    filter (fun book => Str.eqb (author book) (author target_book)) similar_books in
  let other_books :=
    filter (fun book => negb (Str.eqb (author book) (author target_book))) similar_books in
  let recommended := same_author_books ++ other_books in
  take limit (sorted_by_rating recommended).

Definition recommend_similar_books (book_title : str) (limit : Z) : list Book :=
  match find_book_by_title books book_title with
  | None => []
  | Some target_book => similar_to target_book limit
  end.

Definition recommend_by_year (y : Z) (limit : Z) : list Book :=
  take limit (sorted_by_rating (get_books_by_year books y)).

Definition recommend_bestsellers (is_bestseller : bool) (limit : Z) : list Book :=
  take limit (sorted_by_rating (get_bestsellers books is_bestseller)).

Definition mood_to_genre_map : list (str * str) := Tables.pairs
  [ ("triste", "Romance"); ("deprimido", "Romance"); ("estressado", "Romance");
    ("ansioso", "Romance"); ("feliz", "Thriller"); ("animado", "Thriller");
    ("relaxar", "Romance"); ("inspirar", "Ficção Científica") ]%string.

Definition negative_moods : list str :=
  map lit ["triste"; "deprimido"; "estressado"; "ansioso"; "mal"]%string.

(** [if not target_genre] holds for [None] and for the empty string. *)
Definition recommend_by_mood (mood : str) (target_genre : option str) (limit : Z)
  : list Book :=
  let target_genre :=
    match target_genre with
    | Some (c :: g) => c :: g
    | _ => dict_get mood_to_genre_map (lower mood) (lit "Romance")
    end in
  let found := get_books_by_genre books target_genre in
  let found :=
    if mem (lower mood) negative_moods
    then filter (fun book => Qle_bool 4 (rating book)) found
    else found in
  take limit (sorted_by_rating found).

Definition relaxing_occasions : list str :=
  map lit ["praia"; "férias"; "viagem"; "relaxar"]%string.

Definition recommend_by_occasion (occasion : str) (target_genre : option str) (limit : Z)
  : list Book :=
  let target_genre :=
    match target_genre with
    | Some (c :: g) => c :: g
    | _ => lit "Romance"
    end in
  let found := get_books_by_genre books target_genre in
  let found :=
    if mem (lower occasion) relaxing_occasions
    then filter (fun book => Qle_bool 3.5 (rating book)) found
    else found in
  take limit (sorted_by_rating found).

End RecommendationEngine.

(** [max(a, b)]: the first argument unless the second is greater. *)
Definition py_max (a b : Q) : Q := if Qltb a b then b else a.

(** [calculate_similarity]: genre and author are compared as they are
    written; the difference of the years is an [int], divided as a
    float. *)
Definition calculate_similarity (book1 book2 : Book) : Q :=
  let similarity := 0%Q in
  let similarity :=
    if Str.eqb (genre book1) (genre book2) then (similarity + 0.4)%Q else similarity in
  let similarity :=
    if Str.eqb (author book1) (author book2) then (similarity + 0.3)%Q else similarity in
  let rating_diff := Qabs (rating book1 - rating book2) in
  let rating_similarity := py_max 0 (1 - rating_diff / 5)%Q in
  let similarity := (similarity + rating_similarity * 0.2)%Q in
  let year_diff := Z.abs (year book1 - year book2) in
  let year_similarity := py_max 0 (1 - inject_Z year_diff / 50)%Q in
  (similarity + year_similarity * 0.1)%Q.

End Engine.

(** ** The other methods of [NLPPipeline] *)

Module NLPTools.

Import NLP Engine.

(** [_normalize_author_names]: the loop of [_expand_synonyms] over the
    table of the authors; no full name holds a backslash. *)
Definition _normalize_author_names (text : str) : str :=
  expand_with famous_authors text.

Definition famous_titles : list str := map lit
  [ "inferno"; "código da vinci"; "it"; "iluminado"; "cemitério maldito";
    "1984"; "anjos e demônios"; "carrie"; "poder do agora"; "harry potter";
    "alquimista"; "steve jobs"; "mindset"; "duna"; "senhor dos anéis";
    "dom casmurro"; "sapiens"; "mundo de sofia"; "orgulho e preconceito";
    "culpa é das estrelas"; "hobbit"; "nárnia"; "garota exemplar";
    "silêncio dos inocentes"; "drácula"; "frankenstein"; "fundação";
    "admirável mundo novo"; "pequeno príncipe"; "processo"; "metamorfose";
    "estrangeiro"; "jogos vorazes"; "divergente"; "fahrenheit 451";
    "laranja mecânica"; "guerra dos mundos"; "retrato de dorian gray";
    "crime e castigo"; "guerra e paz"; "grande gatsby"; "moby dick" ]%string.

(** [_detect_specific_books]: the titles of the list that the lower-cased
    text contains, in the order of the list. *)
Definition _detect_specific_books (text : str) : list str :=
  let text_lower := lower text in
  filter (fun title => contains text_lower title) famous_titles.

Definition context_mapping : list (str * str) := Tables.pairs
  [ ("clássico", "Literatura Brasileira"); ("antigo", "Filosofia");
    ("moderno", "Ficção Científica"); ("contemporâneo", "Romance");
    ("jovem", "Romance"); ("adulto", "Thriller"); ("criança", "Fantasia");
    ("escola", "História"); ("trabalho", "Autoajuda");
    ("universidade", "Filosofia"); ("pesado", "Filosofia"); ("leve", "Romance");
    ("rápido", "Thriller"); ("longo", "História"); ("curto", "Romance");
    ("denso", "Filosofia"); ("fácil", "Romance"); ("difícil", "Filosofia") ]%string.

(** [for keyword, genre in mapping.items(): if keyword in text: return genre] *)
Fixpoint first_keyword (mapping : list (str * str)) (text_lower : str) : option str :=
  match mapping with
  | [] => None
  | (keyword, g) :: rest =>
      if contains text_lower keyword then Some g else first_keyword rest text_lower
  end.

Definition _suggest_smart_genre (user_input : str) : option str :=
  first_keyword context_mapping (lower user_input).

Definition available_genres : list str := map lit
  [ "Thriller"; "Terror"; "Ficção Científica"; "Autoajuda"; "Romance";
    "História"; "Filosofia"; "Fantasia"; "Literatura Brasileira"; "Biografia";
    "Mistério" ]%string.

(** [_validate_genre]: the first genre equal to the input, case apart;
    failing that, the first genre that contains the input or that the
    input contains, case apart; failing that, the input. *)
Definition _validate_genre (g : str) : str :=
  let genre_lower := lower g in
  match find (fun available => Str.eqb genre_lower (lower available)) available_genres with
  | Some available => available
  | None =>
      match find (fun available =>
                    contains (lower available) genre_lower
                    || contains genre_lower (lower available)) available_genres with
      | Some available => available
      | None => g
      end
  end.

(** The values of the dict of [_detect_multiple_criteria]. *)
Inductive criterion : Type :=
| CStr (s : str)
| CInt (z : Z)
| CBool (b : bool).

Definition criteria_genres : list str := map lit
  [ "terror"; "romance"; "thriller"; "ficção científica"; "fantasia";
    "autoajuda"; "história"; "filosofia"; "biografia"; "mistério";
    "literatura brasileira" ]%string.

(** [any(word in text for word in words)] *)
Definition any_in (text : str) (words : list str) : bool :=
  existsb (fun word => contains text word) words.

(** [_detect_multiple_criteria]: the entries are listed in the order of
    their insertion.  The year is searched in the text as it is, without
    [re.IGNORECASE]; the pattern holds no letter, so the flag makes no
    difference. *)
Definition _detect_multiple_criteria (text : str) : result (list (string * criterion)) :=
  let text_lower := lower text in
  let criteria := [] in
  let criteria :=
    match find (fun g => contains text_lower g) criteria_genres with
    | Some g => criteria ++ [("genre"%string, CStr g)]
    | None => criteria
    end in
  let criteria :=
    match find (fun a => contains text_lower a) (map fst famous_authors) with
    | Some a => criteria ++ [("author"%string, CStr a)]
    | None => criteria
    end in
  year_match <- Re.search (lit "\b(19|20)\d{2}\b") text ;;
  criteria <-
    match year_match with
    | Some m =>
        y <- py_int (Some (Re.group0 m)) ;;
        Ok (criteria ++ [("year"%string, CInt y)])
    | None => Ok criteria
    end ;;
  let criteria :=
    if any_in text_lower (map lit ["bestseller"; "famoso"; "popular"; "clássico"]%string)
    then criteria ++ [("bestseller"%string, CBool true)]
    else if any_in text_lower (map lit ["raro"; "independente"; "alternativo"]%string)
    then criteria ++ [("bestseller"%string, CBool false)]
    else criteria in
  Ok criteria.

(** [f"Você quis dizer '{name}'?"] *)
Definition did_you_mean (name : str) : str :=
  lit "Você quis dizer '" ++ name ++ lit "'?".

(** [_generate_suggestions]: the genres, then the authors, whose ratio
    to the lower-cased text exceeds 0.6; three suggestions at most. *)
Definition _generate_suggestions (text : str) : list str :=
  let close (name : str) := Qltb 0.6 (ratio (lower text) name) in
  let suggestions :=
    map did_you_mean (filter close (map fst genre_synonyms))
    ++ map did_you_mean (filter close (map fst famous_authors)) in
  firstn 3 suggestions.

(** [text.split()]: the maximal runs of characters that are not
    whitespace.  [word] holds the run being read, reversed. *)
Fixpoint split_from (word : str) (s : str) : list str :=
  match s with
  | [] => match word with [] => [] | _ => [rev word] end
  | c :: s' =>
      if is_space c
      then match word with
           | [] => split_from [] s'
           | _ => rev word :: split_from [] s'
           end
      else split_from (c :: word) s'
  end.

Definition split (s : str) : list str := split_from [] s.

(** The dict of [_validate_input]. *)
Record InputAnalysis : Type := mkAnalysis {
  input_length : nat;   (* the key [length] *)
  word_count : nat;
  has_question_mark : bool;
  has_exclamation : bool;
  language_detected : str;
  complexity : str
}.

Definition _validate_input (text : str) : InputAnalysis :=
  mkAnalysis
    (List.length text)
    (List.length (split text))
    (contains text (lit "?"))
    (contains text (lit "!"))
    (lit "portuguese")
    (if List.length (split text) <=? 5 then lit "simple" else lit "complex").

(** The dict of [process_complex_query]. *)
Record ComplexResult : Type := mkComplex {
  primary_intent : Intent;
  multiple_criteria : list (string * criterion);
  input_analysis : InputAnalysis;
  suggestions : list str
}.

Definition process_complex_query (text : str) : result ComplexResult :=
  intent <- process text ;;
  criteria <- _detect_multiple_criteria text ;;
  let analysis := _validate_input text in
  let suggestions :=
    if String.eqb (name intent) "unknown" then _generate_suggestions text else [] in
  Ok (mkComplex intent criteria analysis suggestions).

(** The two settings of the pipeline. *)
Record Settings : Type := mkSettings {
  confidence_threshold : Q;
  advanced_processing_enabled : bool
}.

(** The settings of [__init__]. *)
Definition initial_settings : Settings := mkSettings 0.3 true.

Definition set_advanced_processing (self : Settings) (enabled : bool) : Settings :=
  mkSettings (confidence_threshold self) enabled.

(** [self.confidence_threshold = max(0.1, min(threshold, 0.9))] *)
Definition set_confidence_threshold (self : Settings) (threshold : Q) : Settings :=
  mkSettings (py_max 0.1 (py_min threshold 0.9)) (advanced_processing_enabled self).

End NLPTools.

(** ** The assistant ([main.py]) *)

Module Chat.

Import Catalog Engine NLP NLPTools.

(** [self.stats] *)
Record Stats : Type := mkStats {
  total_requests : Z;
  simple_processing : Z;
  advanced_processing : Z;
  unknown_intents : Z
}.

(** The assistant: the pipeline it shares (of which it reads and sets
    the two settings) and its counters. *)
Record BookstoreAI : Type := mkAI {
  nlp_pipeline : Settings;
  stats : Stats
}.

Definition __init__ : BookstoreAI := mkAI initial_settings (mkStats 0 0 0 0).

(** The texts of the replies.  A reply is the text of the source that is
    chosen and the value its f-string shows; [MoodResponse key] and
    [OccasionResponse key] are the entries of the dicts [mood_responses]
    and [occasion_responses]. *)
Inductive Reply : Type :=
| GenreFound (target : value)
| GenreNotFound (target : value)
| AuthorFound (author : value)
| AuthorNotFound (author : value)
| SimilarFound (book_title : value)
| SimilarNotFound (book_title : value)
| YearFound (published : value)
| YearNotFound (published : value)
| Bestsellers
| LesserKnown
| MoodResponse (key : str)
| MoodDefault (mood : value)
| MoodNotFound
| OccasionResponse (key : str)
| OccasionDefault (occasion : value)
| OccasionNotFound (occasion : value)
| PartlyUnderstood
| NotUnderstood.

(** [ChatResponse] of [models/chat.py]; the dict of a book is the book. *)
Record ChatResponse : Type := mkChatResponse {
  response : Reply;
  recommended_books : list Book;
  intent : string;
  confidence : Q
}.

(** [entities.get(key, default)] *)
Fixpoint get (entities : list (string * value)) (key : string) (default : value) : value :=
  match entities with
  | [] => default
  | (k, v) :: rest => if String.eqb k key then v else get rest key default
  end.

(** [x.lower()]: an [int] has no such method. *)
Definition lower_of (x : value) : result str :=
  match x with
  | VStr s => Ok (lower s)
  | VInt _ => Raise AttributeError
  end.

Definition mood_responses : list str :=
  map lit ["triste"; "deprimido"; "estressado"; "ansioso"; "feliz"; "animado"]%string.

Definition occasion_responses : list str :=
  map lit ["viajar"; "praia"; "férias"; "trabalho"; "dormir"; "avião"]%string.

(** [_generate_helpful_response] *)
Definition _generate_helpful_response (message : str) (confidence : Q) : Reply :=
  if Qltb 0.1 confidence then PartlyUnderstood else NotUnderstood.

Section Assistant.

(** The books of the shared [book_service]. *)
Variable books : list Book.

(** A call of the engine that compares [x.lower()] with a field of each
    book of the catalog, with the limit 5 of the signature: on an [int]
    the first book raises [AttributeError], and a catalog without books
    gives no book. *)
Definition text_query (recommend : str -> Z -> list Book) (x : value)
  : result (list Book) :=
  match x with
  | VStr s => Ok (recommend s 5%Z)
  | VInt _ => match books with [] => Ok [] | _ :: _ => Raise AttributeError end
  end.

(** [recommend_by_year(year)]: no [int] equals a [str]. *)
Definition year_query (x : value) : list Book :=
  match x with
  | VInt y => recommend_by_year books y 5
  | VStr _ => []
  end.

(** [recommend_by_mood(mood, target_genre)]: [mood.lower()] is evaluated
    in every run; an [int] for the genre is taken for no genre when it is
    0 and is compared like a text otherwise. *)
Definition mood_query (mood target_genre : value) : result (list Book) :=
  match mood, target_genre with
  | VStr m, VStr t => Ok (recommend_by_mood books m (Some t) 5)
  | VStr m, VInt 0 => Ok (recommend_by_mood books m None 5)
  | VStr m, VInt _ => match books with [] => Ok [] | _ :: _ => Raise AttributeError end
  | VInt _, _ => Raise AttributeError
  end.

(** [recommend_by_occasion(occasion, target_genre)], likewise. *)
Definition occasion_query (occasion target_genre : value) : result (list Book) :=
  match occasion, target_genre with
  | VStr o, VStr t => Ok (recommend_by_occasion books o (Some t) 5)
  | VStr o, VInt 0 => Ok (recommend_by_occasion books o None 5)
  | VStr o, VInt _ => match books with [] => Ok [] | _ :: _ => Raise AttributeError end
  | VInt _, _ => Raise AttributeError
  end.

(** [if books: found else missing] *)
Definition if_any (found : list Book) (some none : Reply) : Reply :=
  match found with
  | [] => none
  | _ :: _ => some
  end.

(** The chain of [if intent.name == ...] of [process_chat_message]: the
    text of the reply and the books. *)
Definition reply_to (message : str) (intent : Intent) : result (Reply * list Book) :=
  let entities := entities intent in
  if String.eqb (name intent) "recommend_by_genre" then
    let genre := get entities "target" (VStr []) in
    found <- text_query (recommend_by_genre books) genre ;;
    Ok (if_any found (GenreFound genre) (GenreNotFound genre), found)
  else if String.eqb (name intent) "recommend_by_author" then
    let author := get entities "author" (VStr []) in
    found <- text_query (recommend_by_author books) author ;;
    Ok (if_any found (AuthorFound author) (AuthorNotFound author), found)
  else if String.eqb (name intent) "recommend_similar" then
    let book_title := get entities "target" (VStr []) in
    found <- text_query (recommend_similar_books books) book_title ;;
    Ok (if_any found (SimilarFound book_title) (SimilarNotFound book_title), found)
  else if String.eqb (name intent) "books_by_year" then
    let year := get entities "year" (VInt 0) in
    let found := year_query year in
    Ok (if_any found (YearFound year) (YearNotFound year), found)
  else if String.eqb (name intent) "bestsellers" then
    Ok (Bestsellers, recommend_bestsellers books true 5)
  else if String.eqb (name intent) "non_bestsellers" then
    Ok (LesserKnown, recommend_bestsellers books false 5)
  else if String.eqb (name intent) "recommend_by_mood" then
    let mood := get entities "mood" (VStr []) in
    let target_genre := get entities "target" (VStr (lit "Romance")) in
    found <- mood_query mood target_genre ;;
    match found with
    | [] => Ok (MoodNotFound, found)
    | _ :: _ =>
        key <- lower_of mood ;;
        Ok (if mem key mood_responses then MoodResponse key else MoodDefault mood, found)
    end
  else if String.eqb (name intent) "recommend_by_occasion" then
    let occasion := get entities "occasion" (VStr []) in
    let target_genre := get entities "target" (VStr (lit "Romance")) in
    found <- occasion_query occasion target_genre ;;
    match found with
    | [] => Ok (OccasionNotFound occasion, found)
    | _ :: _ =>
        key <- lower_of occasion ;;
        Ok (if mem key occasion_responses then OccasionResponse key
            else OccasionDefault occasion, found)
    end
  else Ok (_generate_helpful_response message (NLP.confidence intent), []).

(** [self.stats[...] += 1] *)
Definition count_request (s : Stats) : Stats :=
  mkStats (total_requests s + 1) (simple_processing s) (advanced_processing s)
          (unknown_intents s).

Definition count_simple (s : Stats) : Stats :=
  mkStats (total_requests s) (simple_processing s + 1) (advanced_processing s)
          (unknown_intents s).

Definition count_advanced (s : Stats) : Stats :=
  mkStats (total_requests s) (simple_processing s) (advanced_processing s + 1)
          (unknown_intents s).

Definition count_unknown (s : Stats) : Stats :=
  mkStats (total_requests s) (simple_processing s) (advanced_processing s)
          (unknown_intents s + 1).

(** [process_chat_message]: the assistant after the call, and the
    response or the exception.  The request is counted before the
    pipeline runs, the kind of processing and the unknown intent once
    it has returned; the pipeline has the attributes that [hasattr]
    asks for. *)
Definition process_chat_message (self : BookstoreAI) (message : str)
  : BookstoreAI * result ChatResponse :=
  let stats := count_request (stats self) in
  match process message with
  | Raise e => (mkAI (nlp_pipeline self) stats, Raise e)
  | Ok intent =>
      let stats :=
        if Qle_bool (confidence_threshold (nlp_pipeline self)) (NLP.confidence intent)
        then count_simple stats else count_advanced stats in
      let stats :=
        if String.eqb (name intent) "unknown" then count_unknown stats else stats in
      (mkAI (nlp_pipeline self) stats,
       found <- reply_to message intent ;;
       Ok (mkChatResponse (fst found) (snd found) (name intent) (NLP.confidence intent)))
  end.

End Assistant.

(** [reset_stats] *)
Definition reset_stats (self : BookstoreAI) : BookstoreAI :=
  mkAI (nlp_pipeline self) (mkStats 0 0 0 0).

(** [configure_nlp]: an argument that is [None] leaves its setting. *)
Definition configure_nlp (self : BookstoreAI) (confidence_threshold : option Q)
    (advanced_processing : option bool) : BookstoreAI :=
  let pipeline := nlp_pipeline self in
  let pipeline :=
    match confidence_threshold with
    | Some threshold => set_confidence_threshold pipeline threshold
    | None => pipeline
    end in
  let pipeline :=
    match advanced_processing with
    | Some enabled => set_advanced_processing pipeline enabled
    | None => pipeline
    end in
  mkAI pipeline (stats self).

End Chat.

(** * Vocabulary of the statements *)

Module Vocabulary.

Import Catalog Engine NLP.

(** ** Rankings *)

(** Descending order of rating. *)
Definition by_rating_desc (l : list Book) : Prop :=
  StronglySorted (fun x y => (rating y <= rating x)%Q) l.

(** A result in descending order of rating, of at most [limit] books. *)
Definition ranked_within (limit : Z) (l : list Book) : Prop :=
  by_rating_desc l /\ (Z.of_nat (List.length l) <= limit)%Z.


(** The books that [recommend_similar_books] ranks: the genre of the
    reference book, the reference book left out. *)
Definition candidates (books : list Book) (ref : Book) : list Book :=
  filter (fun book => negb (id book =? id ref)%Z)
         (get_books_by_genre books (genre ref)).



(** A catalog for the examples: a reference book, a book of the same
    author rated 3.0 and a book of another author rated 4.9, all of one
    genre. *)
Definition ex_ref : Book :=
  mkBook 1 (lit "It") (lit "Stephen King") (lit "Terror") 1986 true (lit "") 4.5.
Definition ex_same : Book :=
  mkBook 2 (lit "Carrie") (lit "Stephen King") (lit "Terror") 1974 true (lit "") 3.0.
Definition ex_other : Book :=
  mkBook 3 (lit "Drácula") (lit "Bram Stoker") (lit "Terror") 1897 true (lit "") 4.9.
Definition ex_catalog : list Book := [ex_ref; ex_same; ex_other].

(** ** Patterns and texts *)

(** The search of [pattern] in [text] finds nothing (and raises
    nothing). *)
Definition unmatched (text pattern : str) : bool :=
  match Re.search pattern text with
  | Ok None => true
  | _ => false
  end.

Definition matched (text pattern : str) : bool :=
  match Re.search pattern text with
  | Ok (Some _) => true
  | _ => false
  end.

(** No pattern of any intent of [table] matches [text]. *)
Definition no_pattern_matches (table : list (string * list str)) (text : str) : bool :=
  forallb (fun entry => forallb (unmatched text) (snd entry)) table.

(** The utterance "conhece", a space, a line break, "bestsellers". *)
Definition two_line_utterance : str :=
  lit "conhece " ++ ["010"%char] ++ lit "bestsellers".

(** The synonym does not occur in [text] as a whole word. *)
Definition absent (text synonym : str) : bool :=
  match Re.search_from (Re.word_pattern synonym) 0 None text with
  | None => true
  | Some _ => false
  end.

(** No synonym of [table] occurs in [text] as a whole word. *)
Definition free_of (table : list (str * list str)) (text : str) : bool :=
  forallb (fun entry => forallb (absent text) (snd entry)) table.

(** ** Scores and ratios *)


(** The canonical names, in table order. *)
Definition canonical : list str := map fst famous_authors.

(** The block [best] ends within the first [m] elements of [a]. *)
Definition ends_within (m : nat) (best : nat * nat * nat) : Prop :=
  let '(i, _, k) := best in i + k <= m.

End Vocabulary.

(** ** Selections *)

Module Selection.

Import Catalog Engine NLP Vocabulary.

(** The number of books [l[:limit]] keeps of [n]. *)
Definition selection_size (limit : Z) (n : nat) : nat :=
  if (0 <=? limit)%Z then Nat.min (Z.to_nat limit) n else n - Z.to_nat (- limit).

(** [result] holds the best rated books of [pool]: it is in descending
    order of rating, it has the size of the slice, and no book left out
    is rated above a book of [result]. *)
Definition top_rated (limit : Z) (pool result : list Book) : Prop :=
  exists rest : list Book,
    Permutation (result ++ rest) pool
    /\ List.length result = selection_size limit (List.length pool)
    /\ by_rating_desc result
    /\ forall x y, In x result -> In y rest -> (rating y <= rating x)%Q.

End Selection.

(** ** The shape of an intent *)

Module Schema.

Import NLP.

(** The keys of the entities of an intent of the given name, in the
    order of their insertion. *)
Definition expected_keys (intent_name : string) : list string :=
  if name_in intent_name ["recommend_by_genre"; "recommend_similar"]%string then ["target"]%string
  else if String.eqb intent_name "recommend_by_author"%string then ["author"]%string
  else if String.eqb intent_name "books_by_year"%string then ["year"]%string
  else if String.eqb intent_name "recommend_by_mood"%string then ["mood"; "target"]%string
  else if String.eqb intent_name "recommend_by_occasion"%string then ["occasion"; "target"]%string
  else [].

(** The entity [year] is an [int], any other a [str]. *)
Definition well_typed (entity : string * value) : bool :=
  match entity with
  | (key, VInt _) => String.eqb key "year"%string
  | (key, VStr _) => negb (String.eqb key "year"%string)
  end.

(** The number of groups of [pattern] fits the intent: the patterns of
    the two bestseller intents have none, the others have some. *)
Definition groups_fit (intent_name : string) (pattern : str) : bool :=
  match Re.compile pattern with
  | Some (_, k) =>
      if name_in intent_name ["bestsellers"; "non_bestsellers"]%string
      then k =? 0 else 0 <? k
  | None => false
  end.

End Schema.

(** ** Patterns that cannot make [process] fail *)

Module Safety.

Import NLP Vocabulary.

(** Every match of [r] sets the group [g]. *)
Fixpoint sets (g : nat) (r : Re.regex) : bool :=
  match r with
  | Re.RGroup n r' => (n =? g) || sets g r'
  | Re.RSeq r1 r2 => sets g r1 || sets g r2
  | Re.RAlt r1 r2 => sets g r1 && sets g r2
  | _ => false
  end.

(** [r] is [\d+], [\d{n}] or [\d{m,n}] with one digit at least. *)
Definition is_digit_rep (r : Re.regex) : bool :=
  match r with
  | Re.RRep Re.ADigit (S _) _ _ => true
  | _ => false
  end.

(** Group 1, wherever [r] has it, is one digit or more. *)
Fixpoint digit_group (r : Re.regex) : bool :=
  match r with
  | Re.RGroup n r' => is_digit_rep r' || (negb (n =? 1) && digit_group r')
  | Re.RSeq r1 r2 | Re.RAlt r1 r2 => digit_group r1 && digit_group r2
  | Re.ROpt r' => digit_group r'
  | _ => true
  end.

(** The entities of the intent can be read off every match of the
    pattern: there is no group, or the intent does not read group 1
    without a guard, or group 1 is always set (and holds digits, for a
    year). *)
Definition safe (intent_name : string) (pattern : str) : bool :=
  match Re.compile pattern with
  | Some (r, k) =>
      (k =? 0)
      || (if name_in intent_name
               ["recommend_by_genre"; "recommend_similar"; "recommend_by_author"]%string
          then sets 1 r
          else if String.eqb intent_name "books_by_year"%string
               then sets 1 r && digit_group r
               else true)
  | None => false
  end.

(** The two patterns whose only group is optional. *)
Definition optional_author_patterns : list str :=
  [lit "conhece (.+?)?"; lit "já leu (.+?)?"].

Definition compiles (pattern : str) : bool :=
  match Re.compile pattern with
  | Some _ => true
  | None => false
  end.

Definition safe_or_optional (intent_name : string) (pattern : str) : bool :=
  safe intent_name pattern
  || (String.eqb intent_name "recommend_by_author"%string
      && mem pattern optional_author_patterns && compiles pattern).

(** [pattern], of the intent [intent_name], is the first pattern of
    the table that matches [text], and [m] is its match. *)
Definition first_match (table : list (string * list str)) (text : str)
    (intent_name : string) (pattern : str) (m : Re.Match) : Prop :=
  exists earlier patterns later before after,
    table = earlier ++ (intent_name, patterns) :: later
    /\ no_pattern_matches earlier text = true
    /\ patterns = before ++ pattern :: after
    /\ forallb (unmatched text) before = true
    /\ Re.search pattern text = Ok (Some m).

(** The span holds one decimal digit or more. *)
Definition digit_span (text : str) (a b : nat) : Prop :=
  slice text a b <> [] /\ forallb is_decimal (slice text a b) = true.

(** Group 1, when it is set, holds digits. *)
Definition digits_inv (text : str) (cs : Re.caps) : Prop :=
  forall a b, Re.lookup 1 cs = Some (a, b) -> digit_span text a b.

(** How one step of the matcher changes the groups: a group that is set
    stays set, the groups that [r] always sets are set, and group 1
    holds digits if it did and [r] only closes it over digits. *)
Definition step_ok (text : str) (r : Re.regex) (cs cs' : Re.caps) : Prop :=
  (forall g, Re.lookup g cs <> None -> Re.lookup g cs' <> None)
  /\ (forall g, sets g r = true -> Re.lookup g cs' <> None)
  /\ (digit_group r = true -> digits_inv text cs -> digits_inv text cs').

End Safety.

(** ** Words and years *)

Module ToolVocabulary.

Import NLP NLPTools.

(** The word holds no whitespace. *)
Definition no_space (w : str) : bool := forallb (fun c => negb (is_space c)) w.

(** The pattern of the year of [_detect_multiple_criteria], compiled. *)
Definition year_re : Re.regex :=
  Re.RSeq Re.RWordB
    (Re.RSeq (Re.RGroup 1
                (Re.RAlt (Re.RSeq (Re.RAtom (Re.ALit "1")) (Re.RAtom (Re.ALit "9")))
                         (Re.RSeq (Re.RAtom (Re.ALit "2")) (Re.RAtom (Re.ALit "0")))))
       (Re.RSeq (Re.RRep Re.ADigit 2 (Some 2) true) Re.RWordB)).

(** The four characters spell a year from 1900 to 2099. *)
Definition year_digits (w : str) : Prop :=
  exists c3 c4,
    (w = ["1"; "9"; c3; c4]%char \/ w = ["2"; "0"; c3; c4]%char)
    /\ is_decimal c3 = true /\ is_decimal c4 = true.

End ToolVocabulary.

(** ** The life of an assistant *)

Module Session.

Import Catalog NLP NLPTools Chat Vocabulary.

(** A call of a method of the assistant. *)
Inductive Call : Type :=
| Ask (message : str)
| Configure (confidence_threshold : option Q) (advanced_processing : option bool)
| Reset.

Definition call (books : list Book) (self : BookstoreAI) (c : Call) : BookstoreAI :=
  match c with
  | Ask message => fst (process_chat_message books self message)
  | Configure confidence_threshold advanced_processing =>
      configure_nlp self confidence_threshold advanced_processing
  | Reset => reset_stats self
  end.

(** The assistant after the calls, from its construction on. *)
Definition after (books : list Book) (calls : list Call) : BookstoreAI :=
  fold_left (call books) calls __init__.

(** The pipeline returns an intent for the message of the call. *)
Definition classified (c : Call) : bool :=
  match c with
  | Ask message => match process message with Ok _ => true | Raise _ => false end
  | _ => true
  end.

(** No book of the result is foreign to the catalog. *)
Definition from_catalog (books found : list Book) : Prop :=
  forall b, In b found -> In b books.

(** The result of the dispatch: good books and a reply that is not a
    help text. *)
Definition served (books : list Book) (r : result (Reply * list Book)) : Prop :=
  exists reply found,
    r = Ok (reply, found)
    /\ ranked_within 5 found
    /\ from_catalog books found
    /\ reply <> PartlyUnderstood /\ reply <> NotUnderstood.

(** The counters and the threshold are consistent. *)
Definition consistent (self : BookstoreAI) : Prop :=
  let s := stats self in
  (0 <= unknown_intents s)%Z
  /\ (unknown_intents s <= advanced_processing s)%Z
  /\ (0 <= simple_processing s)%Z
  /\ (simple_processing s + advanced_processing s <= total_requests s)%Z
  /\ (0.1 <= confidence_threshold (nlp_pipeline self))%Q
  /\ (confidence_threshold (nlp_pipeline self) <= 0.9)%Q.

(** Every request was counted as simple or as advanced processing. *)
Definition balanced (self : BookstoreAI) : Prop :=
  let s := stats self in
  (simple_processing s + advanced_processing s = total_requests s)%Z.

End Session.

(** * Properties *)

(** ** Strings, patterns and tables *)

Module StrFacts.

Lemma eqb_refl (a : str) : Str.eqb a a = true.
Proof.
  induction a as [|x a IH]; simpl; [reflexivity|].
  now rewrite Ascii.eqb_refl, IH.
Qed.

Lemma eqb_eq (a b : str) : Str.eqb a b = true <-> a = b.
Proof.
  split; [|intros ->; apply eqb_refl].
  revert b; induction a as [|x a IH]; intros [|y b]; simpl; try discriminate; auto.
  intros H; apply andb_true_iff in H as [H1 H2].
  apply Ascii.eqb_eq in H1; f_equal; auto.
Qed.

Lemma contains_nil (s : str) : contains s [] = true.
Proof. destruct s; simpl; reflexivity. Qed.

End StrFacts.

Example lit_ascii : lit "king" = ["k"; "i"; "n"; "g"]%char.
Proof. reflexivity. Qed.

Example lit_latin1 : map code (lit "ficção") = [102; 105; 99; 231; 227; 111]%N.
Proof. reflexivity. Qed.

Example lower_latin1 : lower (lit "FICÇÃO Científica") = lit "ficção científica".
Proof. reflexivity. Qed.

Example strip_both : strip (lit "  estou triste ") = lit "estou triste".
Proof. reflexivity. Qed.

Example compile_genre :
  Re.compile (lit "livros (\w+)") =
  Some (Re.RSeq (Re.RAtom (Re.ALit "l")) (Re.RSeq (Re.RAtom (Re.ALit "i"))
        (Re.RSeq (Re.RAtom (Re.ALit "v")) (Re.RSeq (Re.RAtom (Re.ALit "r"))
        (Re.RSeq (Re.RAtom (Re.ALit "o")) (Re.RSeq (Re.RAtom (Re.ALit "s"))
        (Re.RSeq (Re.RAtom (Re.ALit " "))
                 (Re.RGroup 1 (Re.RRep Re.AWord 1 None true)))))))), 1).
Proof. reflexivity. Qed.

Example compile_author :
  Re.compile (lit "a (.+?)(?:\s|$)") =
  Some (Re.RSeq (Re.RAtom (Re.ALit "a")) (Re.RSeq (Re.RAtom (Re.ALit " "))
        (Re.RSeq (Re.RGroup 1 (Re.RRep Re.AAny 1 None false))
                 (Re.RAlt (Re.RAtom Re.ASpace) Re.REnd))), 1).
Proof. reflexivity. Qed.

Example compile_optional :
  Re.compile (lit "u (m )?(?:x )?(a|b)") =
  Some (Re.RSeq (Re.RAtom (Re.ALit "u")) (Re.RSeq (Re.RAtom (Re.ALit " "))
        (Re.RSeq (Re.ROpt (Re.RGroup 1
                    (Re.RSeq (Re.RAtom (Re.ALit "m")) (Re.RAtom (Re.ALit " ")))))
        (Re.RSeq (Re.ROpt (Re.RSeq (Re.RAtom (Re.ALit "x")) (Re.RAtom (Re.ALit " "))))
                 (Re.RGroup 2 (Re.RAlt (Re.RAtom (Re.ALit "a"))
                                       (Re.RAtom (Re.ALit "b"))))))), 2).
Proof. reflexivity. Qed.

Example compile_digits :
  Re.compile (lit "s (\d{1,2})") =
  Some (Re.RSeq (Re.RAtom (Re.ALit "s")) (Re.RSeq (Re.RAtom (Re.ALit " "))
        (Re.RGroup 1 (Re.RRep Re.ADigit 1 (Some 2) true))), 1).
Proof. reflexivity. Qed.

(** Every pattern of the table is in the fragment. *)
Example all_patterns_compile :
  forallb (fun e => forallb (fun p => match Re.compile p with Some _ => true | None => false end)
                            (snd e)) intent_patterns = true.
Proof. vm_compute. reflexivity. Qed.

(** ** Sorting by rating *)

Module SortFacts.

Import Catalog Engine NLP Vocabulary.

Lemma Qltb_lt (a b : Q) : Qltb a b = true <-> (a < b)%Q.
Proof.
  unfold Qltb. rewrite negb_true_iff.
  split; intros H.
  - apply Qnot_le_lt. intros Hle. apply Qle_bool_iff in Hle. congruence.
  - destruct (Qle_bool b a) eqn:E; [|reflexivity].
    apply Qle_bool_iff in E. exfalso. exact (Qlt_not_le _ _ H E).
Qed.

Lemma Qltb_ge (a b : Q) : Qltb a b = false <-> (b <= a)%Q.
Proof.
  unfold Qltb. rewrite negb_false_iff. apply Qle_bool_iff.
Qed.

Lemma insert_perm (x : Book) (l : list Book) :
  Permutation (insert_by_rating x l) (x :: l).
Proof.
  induction l as [|y l IH]; simpl; [reflexivity|].
  destruct (Qltb (rating x) (rating y)); [|reflexivity].
  rewrite IH. apply perm_swap.
Qed.

Lemma sorted_perm (l : list Book) : Permutation (sorted_by_rating l) l.
Proof.
  induction l as [|x l IH]; simpl; [reflexivity|].
  rewrite insert_perm. now constructor.
Qed.

Lemma insert_sorted (x : Book) (l : list Book) :
  by_rating_desc l -> by_rating_desc (insert_by_rating x l).
Proof.
  unfold by_rating_desc.
  induction l as [|y l IH]; intros Hs; simpl.
  - repeat constructor.
  - inversion Hs as [|? ? Hl Hy]; subst.
    destruct (Qltb (rating x) (rating y)) eqn:E.
    + apply Qltb_lt in E. constructor; [auto|].
      eapply Permutation_Forall; [symmetry; apply insert_perm|].
      constructor; [apply Qlt_le_weak; exact E | exact Hy].
    + apply Qltb_ge in E. constructor; [exact Hs|].
      constructor; [exact E|].
      eapply Forall_impl; [|exact Hy].
      intros z Hz. apply Qle_trans with (rating y); assumption.
Qed.

Lemma sorted_sorted (l : list Book) : by_rating_desc (sorted_by_rating l).
Proof.
  induction l as [|x l IH]; simpl; [constructor|].
  now apply insert_sorted.
Qed.

Lemma firstn_In (A : Type) (n : nat) (l : list A) (x : A) :
  In x (firstn n l) -> In x l.
Proof.
  intros H. rewrite <- (firstn_skipn n l). apply in_or_app. now left.
Qed.

Lemma firstn_sorted (n : nat) (l : list Book) :
  by_rating_desc l -> by_rating_desc (firstn n l).
Proof.
  unfold by_rating_desc. revert n.
  induction l as [|x l IH]; intros [|n] Hs; simpl; try constructor.
  - inversion Hs; subst; auto.
  - inversion Hs as [|? ? _ Hx]; subst.
    rewrite Forall_forall in *. intros y Hy. apply Hx.
    eapply firstn_In; eauto.
Qed.

Lemma take_sorted (limit : Z) (l : list Book) :
  by_rating_desc l -> by_rating_desc (take limit l).
Proof.
  intros H. unfold take. destruct (0 <=? limit)%Z; now apply firstn_sorted.
Qed.

Lemma take_length (limit : Z) (l : list Book) :
  (0 <= limit)%Z -> (Z.of_nat (List.length (take limit l)) <= limit)%Z.
Proof.
  intros H. unfold take.
  destruct (Z.leb_spec 0 limit) as [_|Hneg]; [|lia].
  rewrite length_firstn. lia.
Qed.

(** What the engine returns: the first books of a list in descending
    order of rating. *)
Lemma take_sorted_ok (limit : Z) (l : list Book) :
  by_rating_desc (take limit (sorted_by_rating l)).
Proof. apply take_sorted, sorted_sorted. Qed.

(** *** Stability *)





End SortFacts.

(** ** The recommendation engine *)

Module EngineFacts.

Import Catalog Engine NLP Vocabulary StrFacts SortFacts.

Lemma take_ranked (limit : Z) (l : list Book) :
  (0 <= limit)%Z -> ranked_within limit (take limit (sorted_by_rating l)).
Proof.
  intros H. split; [apply take_sorted_ok | now apply take_length].
Qed.

Lemma filter_split_perm (A : Type) (p : A -> bool) (l : list A) :
  Permutation (filter p l ++ filter (fun x => negb (p x)) l) l.
Proof.
  induction l as [|x l IH]; simpl; [reflexivity|].
  destruct (p x); simpl.
  - now constructor.
  - symmetry. apply Permutation_cons_app. now symmetry.
Qed.



(** C9: with a limit that is not negative, each of the seven operations
    returns a list in descending order of rating, of at most [limit]
    books. *)
Theorem recommendations_ranked_within_limit (books : list Book) (limit : Z) :
  (0 <= limit)%Z ->
  (forall g, ranked_within limit (recommend_by_genre books g limit))
  /\ (forall a, ranked_within limit (recommend_by_author books a limit))
  /\ (forall y, ranked_within limit (recommend_by_year books y limit))
  /\ (forall flag, ranked_within limit (recommend_bestsellers books flag limit))
  /\ (forall t, ranked_within limit (recommend_similar_books books t limit))
  /\ (forall mood target, ranked_within limit (recommend_by_mood books mood target limit))
  /\ (forall occasion target,
        ranked_within limit (recommend_by_occasion books occasion target limit)).
Proof.
  intros H. repeat split; intros;
    try (unfold recommend_by_genre, recommend_by_author, recommend_by_year,
           recommend_bestsellers, recommend_by_mood, recommend_by_occasion;
         apply take_ranked; assumption).
  - unfold recommend_similar_books.
    destruct (find_book_by_title books t); [apply take_sorted_ok | constructor].
  - unfold recommend_similar_books.
    destruct (find_book_by_title books t); [now apply take_length | simpl; lia].
Qed.

(** The instance of C9 for the example catalog and the limit 1. *)
Lemma recommendations_ranked_within_limit_witness :
  (0 <= 1)%Z /\
  ranked_within 1 (recommend_similar_books ex_catalog (lit "it") 1).
Proof.
  split; [lia|].
  apply (recommendations_ranked_within_limit ex_catalog (limit := 1)). lia.
Defined.

(** C10: the title lookup returns the first book, in catalog order, whose
    lower-cased title contains the lower-cased fragment; the empty
    fragment finds the first book of a catalog that has one, and the
    similar books are then those of that book. *)
Theorem empty_title_finds_first_book (b : Book) (rest : list Book) (limit : Z) :
  (forall books t,
      find_book_by_title books t =
      find (fun book => contains (lower (title book)) (lower t)) books)
  /\ find_book_by_title (b :: rest) [] = Some b
  /\ recommend_similar_books (b :: rest) [] limit = similar_to (b :: rest) b limit.
Proof.
  split; [|split].
  - induction books as [|x l IH]; intros t; simpl; [reflexivity|].
    now rewrite IH.
  - simpl. now rewrite contains_nil.
  - unfold recommend_similar_books. simpl. now rewrite contains_nil.
Qed.

End EngineFacts.

(** ** The pattern matcher *)

Module PipelineFacts.

Import NLP Vocabulary.

Lemma unmatched_search (text pattern : str) :
  unmatched text pattern = true -> Re.search pattern text = Ok None.
Proof.
  unfold unmatched. destruct (Re.search pattern text) as [[m|]|e]; congruence.
Qed.

Lemma try_patterns_unmatched (n : string) (ps : list str) (text : str) :
  forallb (unmatched text) ps = true -> try_patterns n ps text = Ok None.
Proof.
  induction ps as [|p ps IH]; simpl; [reflexivity|].
  intros H. apply andb_true_iff in H as [Hp Hps].
  rewrite (unmatched_search _ _ Hp). simpl. auto.
Qed.

Lemma try_intents_unmatched (table : list (string * list str)) (text : str) :
  no_pattern_matches table text = true -> try_intents table text = Ok unknown.
Proof.
  unfold no_pattern_matches.
  induction table as [|[n ps] table IH]; simpl; [reflexivity|].
  intros H. apply andb_true_iff in H as [Hp Ht].
  rewrite (try_patterns_unmatched n _ _ Hp). simpl. auto.
Qed.

(** What the inner loop returns comes from the first pattern of the
    intent that matches. *)
Lemma try_patterns_found (n : string) (ps : list str) (text : str) (i : Intent) :
  try_patterns n ps text = Ok (Some i) ->
  name i = n
  /\ exists ps1 p ps2 m,
       ps = ps1 ++ p :: ps2
       /\ forallb (unmatched text) ps1 = true
       /\ Re.search p text = Ok (Some m)
       /\ on_match n p text m = Ok i.
Proof.
  induction ps as [|p ps IH]; simpl; [discriminate|].
  destruct (Re.search p text) as [[m|]|e] eqn:Es; simpl; [| |discriminate].
  - destruct (on_match n p text m) as [j|e] eqn:Em; simpl; [|discriminate].
    intros H; injection H as <-. split.
    + unfold on_match in Em.
      destruct (if 0 <? Re.m_ngroups m then extract_entities n text m else Ok [])
        as [ents|e]; simpl in Em; [|discriminate].
      now injection Em as <-.
    + exists [], p, ps, m. repeat split; auto.
  - intros H. destruct (IH H) as [Hn (ps1 & q & ps2 & m & -> & Hu & Hs & Hm)].
    split; [exact Hn|].
    exists (p :: ps1), q, ps2, m. repeat split; auto.
    simpl. unfold unmatched at 1. now rewrite Es.
Qed.

Lemma try_patterns_none (n : string) (ps : list str) (text : str) :
  try_patterns n ps text = Ok None -> forallb (unmatched text) ps = true.
Proof.
  induction ps as [|p ps IH]; simpl; [reflexivity|].
  destruct (Re.search p text) as [[m|]|e] eqn:Es; simpl; [| |discriminate].
  - destruct (on_match n p text m); simpl; discriminate.
  - intros H. unfold unmatched at 1. rewrite Es. simpl. auto.
Qed.

(** What the outer loop returns: [unknown] when nothing matches, and
    otherwise the intent of the first entry of the table with a pattern
    that matches, built from the first such pattern. *)
Lemma try_intents_found (table : list (string * list str)) (text : str) (i : Intent) :
  try_intents table text = Ok i ->
  (i = unknown /\ no_pattern_matches table text = true)
  \/ exists t1 ps t2 ps1 p ps2 m,
       table = t1 ++ (name i, ps) :: t2
       /\ no_pattern_matches t1 text = true
       /\ ps = ps1 ++ p :: ps2
       /\ forallb (unmatched text) ps1 = true
       /\ Re.search p text = Ok (Some m)
       /\ on_match (name i) p text m = Ok i.
Proof.
  induction table as [|[n ps] table IH]; simpl.
  - intros H; injection H as <-. now left.
  - destruct (try_patterns n ps text) as [[j|]|e] eqn:Ep; simpl; [| |discriminate].
    + intros H; injection H as ->. right.
      destruct (try_patterns_found _ _ _ Ep) as [Hn (ps1 & p & ps2 & m & Hps & Hu & Hs & Hm)].
      subst n. exists [], ps, table, ps1, p, ps2, m. repeat split; auto.
    + intros H. apply try_patterns_none in Ep.
      destruct (IH H) as [[-> Hno] | (t1 & qs & t2 & ps1 & p & ps2 & m & -> & Hno & Hq & Hu & Hs & Hm)].
      * left. split; [reflexivity|]. unfold no_pattern_matches. simpl.
        now rewrite Ep.
      * right. exists ((n, ps) :: t1), qs, t2, ps1, p, ps2, m.
        repeat split; auto.
        unfold no_pattern_matches. simpl. now rewrite Ep.
Qed.

(** C8: when no pattern of any intent matches the prepared text,
    [process] returns the intent [unknown], with the confidence 0 and no
    entity; it raises nothing. *)
Theorem no_match_is_unknown (text : str) :
  no_pattern_matches intent_patterns (prepare text) = true ->
  process text = Ok (mkIntent "unknown" 0 []).
Proof.
  intros H. unfold process. now apply try_intents_unmatched.
Qed.

(** The instance of C8 for a greeting. *)
Lemma no_match_is_unknown_witness :
  no_pattern_matches intent_patterns (prepare (lit "Bom dia!")) = true
  /\ process (lit "Bom dia!") = Ok (mkIntent "unknown" 0 []).
Proof.
  split; [vm_compute; reflexivity|].
  apply (no_match_is_unknown (lit "Bom dia!")). vm_compute. reflexivity.
Defined.

End PipelineFacts.

(** ** Classification of utterances *)

Module ClassificationFacts.

Import NLP Vocabulary PipelineFacts.

(** C2: for the utterance "livros de 2020" the specification expects the
    intent [books_by_year] with the year 2020.  The code returns the
    intent [recommend_by_genre] with the target "de": the pattern
    [livros (\w+)] of the first intent of the table matches, so the
    pattern [livros de (\d{4})] of [books_by_year], which matches too, is
    never tried. *)
Theorem year_utterance_read_as_genre :
  process (lit "livros de 2020")
  = Ok (mkIntent "recommend_by_genre" 0.95 [("target"%string, VStr (lit "de"))])
  /\ matched (prepare (lit "livros de 2020")) (lit "livros (\w+)") = true
  /\ matched (prepare (lit "livros de 2020")) (lit "livros de (\d{4})") = true.
Proof. vm_compute. repeat split; reflexivity. Qed.

(** C4: for the utterance "estou triste" the specification expects the
    intent [recommend_by_mood] with the mood "triste" and the target
    "Romance".  The code returns that intent and that target, but the
    mood is the whole match "estou triste": group 1 of the pattern is the
    optional [(me sentindo )], which takes no part in the match, and the
    mood word is group 2. *)
Theorem sad_utterance_mood_is_whole_match :
  process (lit "estou triste")
  = Ok (mkIntent "recommend_by_mood" 0.95
          [("mood"%string, VStr (lit "estou triste"));
           ("target"%string, VStr (lit "Romance"))])
  /\ Re.search (lit "estou (me sentindo )?(?:muito )?(triste|feliz|estressado|ansioso|deprimido|animado|bem|mal)")
               (lit "estou triste")
     = Ok (Some (Re.mkMatch (lit "estou triste") 0 12 [(2, (6, 12))] 2)).
Proof. vm_compute. repeat split; reflexivity. Qed.

(** C5: on a text that a pattern of [recommend_by_author] and a pattern
    of [bestsellers] both match, the specification expects [process] to
    return the intent [recommend_by_author].  On the two-line utterance
    the pattern [conhece (.+?)?] matches with its group unset (a dot
    takes no line break), and [process] raises [AttributeError] at
    [match.group(1).strip()] instead of returning an intent. *)
Theorem unset_author_group_raises :
  prepare two_line_utterance = two_line_utterance
  /\ matched two_line_utterance (lit "conhece (.+?)?") = true
  /\ matched two_line_utterance (lit "bestsellers?") = true
  /\ process two_line_utterance = Raise AttributeError.
Proof. vm_compute. repeat split; reflexivity. Qed.

(** X1: whenever [process] returns an intent, it is [unknown] and no
    pattern matches the prepared text, or it bears the name of the first
    entry of the table that has a pattern matching the prepared text. *)
Theorem process_returns_first_matching_intent (text : str) :
  match process text with
  | Raise _ => True
  | Ok i =>
      (i = unknown /\ no_pattern_matches intent_patterns (prepare text) = true)
      \/ exists earlier patterns later,
           intent_patterns = earlier ++ (name i, patterns) :: later
           /\ no_pattern_matches earlier (prepare text) = true
           /\ existsb (matched (prepare text)) patterns = true
  end.
Proof.
  destruct (process text) as [i|e] eqn:E; [|exact I].
  unfold process in E. apply try_intents_found in E.
  destruct E as [E | (t1 & ps & t2 & ps1 & p & ps2 & m & Ht & Hno & Hps & Hu & Hs & Hm)].
  - now left.
  - right. exists t1, ps, t2. repeat split; auto.
    apply existsb_exists. exists p. split.
    + subst ps. apply in_or_app. right. now left.
    + unfold matched. now rewrite Hs.
Qed.

End ClassificationFacts.

(** ** Synonym expansion *)

Module SynonymFacts.

Import NLP Vocabulary.

(** C3, as stated, fails: "literatura" is a synonym of the genre
    "literatura brasileira", which contains it as a word, so a second
    expansion replaces it again. *)
Lemma expansion_not_idempotent :
  _expand_synonyms (lit "literatura") = lit "literatura brasileira"
  /\ _expand_synonyms (_expand_synonyms (lit "literatura"))
     = lit "literatura brasileira brasileira"
  /\ _expand_synonyms (_expand_synonyms (lit "literatura"))
     <> _expand_synonyms (lit "literatura").
Proof. vm_compute. repeat split; try reflexivity. discriminate. Qed.

Lemma sub_from_no_match (r : Re.regex) (repl : str) (s : str) :
  forall pos prev,
    Re.search_from r pos prev s = None -> Re.sub_from r repl 0 pos prev s = s.
Proof.
  induction s as [|c s IH]; intros pos prev; simpl.
  - destruct (Re.match_here r pos prev []) as [[e cs]|]; [discriminate|reflexivity].
  - destruct (Re.match_here r pos prev (c :: s)) as [[e cs]|]; [discriminate|].
    intros H. now rewrite (IH _ _ H).
Qed.

Lemma sub_absent (text synonym repl : str) :
  absent text synonym = true -> Re.sub (Re.word_pattern synonym) repl text = text.
Proof.
  unfold absent, Re.sub. intros H. apply sub_from_no_match.
  destruct (Re.search_from (Re.word_pattern synonym) 0 None text); congruence.
Qed.

Lemma replace_absent (main_genre : str) (synonyms : list str) (text : str) :
  forallb (absent text) synonyms = true ->
  replace_synonyms main_genre synonyms text = text.
Proof.
  unfold replace_synonyms.
  induction synonyms as [|s l IH]; simpl; [reflexivity|].
  intros H. apply andb_true_iff in H as [Hs Hl].
  rewrite (sub_absent _ _ _ Hs). auto.
Qed.

(** A text without synonym is left as it is. *)
Lemma expand_free (table : list (str * list str)) (text : str) :
  free_of table text = true -> expand_with table text = text.
Proof.
  unfold expand_with, free_of.
  induction table as [|[g l] table IH]; simpl; [reflexivity|].
  intros H. apply andb_true_iff in H as [Hl Ht].
  rewrite (replace_absent _ _ _ Hl). auto.
Qed.

(** C3, amended: the expansion is idempotent on every text whose
    expansion holds no synonym as a whole word. *)
Theorem expansion_idempotent_when_free (t : str) :
  free_of genre_synonyms (_expand_synonyms t) = true ->
  _expand_synonyms (_expand_synonyms t) = _expand_synonyms t.
Proof.
  intros H. unfold _expand_synonyms at 1. now apply expand_free.
Qed.

(** The instance of C3, amended, for a text that the expansion changes. *)
Lemma expansion_idempotent_when_free_witness :
  _expand_synonyms (lit "gosto de horror") = lit "gosto de terror"
  /\ _expand_synonyms (_expand_synonyms (lit "gosto de horror"))
     = _expand_synonyms (lit "gosto de horror").
Proof.
  split; [vm_compute; reflexivity|].
  apply (expansion_idempotent_when_free (lit "gosto de horror")).
  vm_compute. reflexivity.
Defined.

End SynonymFacts.

(** ** The confidence scorer *)

Module ConfidenceFacts.

Import NLP Vocabulary SortFacts PipelineFacts.









End ConfidenceFacts.

(** ** The author normalizer *)

Module AuthorFacts.

Import NLP Vocabulary SortFacts.

Lemma by_variation_spec (a : str) (table : list (str * list str)) :
  match by_variation a table with
  | Some full_name =>
      exists earlier variations later,
        table = earlier ++ (full_name, variations) :: later
        /\ mem a variations = true
        /\ forall e, In e earlier -> mem a (snd e) = false
  | None => forall e, In e table -> mem a (snd e) = false
  end.
Proof.
  induction table as [|[n vs] table IH]; simpl.
  - intros e [].
  - destruct (mem a vs) eqn:E.
    + exists [], vs, table. repeat split; auto. intros e [].
    + destruct (by_variation a table) as [full|].
      * destruct IH as (l1 & vs' & l2 & -> & Hm & Hl).
        exists ((n, vs) :: l1), vs', l2. repeat split; auto.
        intros e [<-|He]; auto.
      * intros e [<-|He]; auto.
Qed.

Lemma best_by_ratio_spec (a : str) (l : list str) :
  forall best_match best_ratio,
    let result := best_by_ratio a l best_match best_ratio in
    (result = best_match
     /\ forall o, In o l -> (ratio a o <= best_ratio)%Q \/ (ratio a o <= 0.7)%Q)
    \/ exists l1 best l2,
         l = l1 ++ best :: l2
         /\ result = Some best
         /\ (best_ratio < ratio a best)%Q
         /\ (0.7 < ratio a best)%Q
         /\ (forall o, In o l1 -> (ratio a o < ratio a best)%Q)
         /\ (forall o, In o l2 -> (ratio a o <= ratio a best)%Q).
Proof.
  induction l as [|x l IH]; intros bm br; simpl.
  - left. split; [reflexivity|]. intros o [].
  - destruct (Qltb br (ratio a x)) eqn:E1; simpl.
    + apply Qltb_lt in E1. destruct (Qltb 0.7 (ratio a x)) eqn:E2.
      * apply Qltb_lt in E2. right.
        destruct (IH (Some x) (ratio a x))
          as [[-> Hall] | (l1 & b & l2 & -> & -> & H1 & H2 & H3 & H4)].
        -- exists [], x, l. repeat split; auto; [intros o []|].
           intros o Ho. destruct (Hall o Ho) as [H|H]; [exact H|].
           apply Qlt_le_weak. eapply Qle_lt_trans; eassumption.
        -- exists (x :: l1), b, l2. repeat split; auto.
           ++ eapply Qlt_trans; eassumption.
           ++ intros o [<-|Ho]; auto.
      * apply Qltb_ge in E2.
        destruct (IH bm br)
          as [[-> Hall] | (l1 & b & l2 & -> & -> & H1 & H2 & H3 & H4)].
        -- left. split; [reflexivity|]. intros o [<-|Ho]; auto.
        -- right. exists (x :: l1), b, l2. repeat split; auto.
           intros o [<-|Ho]; auto. eapply Qle_lt_trans; eassumption.
    + apply Qltb_ge in E1.
      destruct (IH bm br)
        as [[-> Hall] | (l1 & b & l2 & -> & -> & H1 & H2 & H3 & H4)].
      * left. split; [reflexivity|]. intros o [<-|Ho]; auto.
      * right. exists (x :: l1), b, l2. repeat split; auto.
        intros o [<-|Ho]; auto. eapply Qle_lt_trans; eassumption.
Qed.

(** C7: the normalizer takes the lower-cased, stripped fragment [a] and
    (1) returns [a] when it is a canonical name; (2) otherwise returns
    the first canonical name, in table order, that lists [a] among its
    aliases; (3) otherwise returns the canonical name of the highest
    similarity ratio when that ratio exceeds 0.7, the first one in table
    order among equals, and nothing when no ratio exceeds 0.7.
    "king" resolves to "stephen king" and "xyzabc123" to nothing. *)
Theorem author_resolution_order (fragment : str) :
  let a := strip (lower fragment) in
  (mem a canonical = true -> _find_best_author_match fragment = Some a)
  /\ (mem a canonical = false ->
      match by_variation a famous_authors with
      | Some full_name =>
          _find_best_author_match fragment = Some full_name
          /\ exists earlier aliases later,
               famous_authors = earlier ++ (full_name, aliases) :: later
               /\ mem a aliases = true
               /\ forall e, In e earlier -> mem a (snd e) = false
      | None =>
          (forall e, In e famous_authors -> mem a (snd e) = false)
          /\ match _find_best_author_match fragment with
             | Some best =>
                 exists earlier later,
                   canonical = earlier ++ best :: later
                   /\ (0.7 < ratio a best)%Q
                   /\ (forall o, In o earlier -> (ratio a o < ratio a best)%Q)
                   /\ (forall o, In o later -> (ratio a o <= ratio a best)%Q)
             | None => forall o, In o canonical -> (ratio a o <= 0.7)%Q
             end
      end)
  /\ _find_best_author_match (lit "king") = Some (lit "stephen king")
  /\ _find_best_author_match (lit "xyzabc123") = None.
Proof.
  cbv zeta. set (a := strip (lower fragment)).
  unfold _find_best_author_match, find_author_in. fold a. fold canonical.
  split; [|split; [|split; vm_compute; reflexivity]].
  - intros ->. reflexivity.
  - intros ->.
    pose proof (by_variation_spec a famous_authors) as Hv.
    destruct (by_variation a famous_authors) as [full|].
    + split; [reflexivity | exact Hv].
    + split; [exact Hv|].
      destruct (best_by_ratio_spec a canonical None 0)
        as [[Hr Hall] | (l1 & b & l2 & Hc & Hr & H1 & H2 & H3 & H4)];
        cbv zeta in Hr; rewrite Hr.
      * intros o Ho. destruct (Hall o Ho) as [H|H]; [|exact H].
        eapply Qle_trans; [exact H | discriminate].
      * exists l1, l2. repeat split; auto.
Qed.

End AuthorFacts.

(** ** The sequence matcher: the recursion bound is never reached *)

Module DifflibFacts.

Import NLP Vocabulary.

Lemma next_row_bound (ai : ascii) (b : str) (n : nat) :
  forall diag old,
    diag <= n -> Forall (fun k => k <= n) old ->
    Forall (fun k => k <= S n) (next_row ai b diag old).
Proof.
  induction b as [|bj b IH]; intros diag old Hd Ho; simpl; constructor.
  - destruct (Ascii.eqb ai bj); lia.
  - apply IH.
    + destruct Ho; simpl; [lia | assumption].
    + destruct Ho; simpl; [constructor | assumption].
Qed.

Lemma scan_row_bound (i : nat) (row : list nat) :
  forall j best,
    Forall (fun k => k <= S i) row -> ends_within (S i) best ->
    ends_within (S i) (scan_row i j row best).
Proof.
  induction row as [|k row IH]; intros j best Hr Hb; simpl; [exact Hb|].
  inversion Hr as [|? ? Hk Hrow]; subst.
  destruct best as [[bi bj] bk]. apply IH; [exact Hrow|].
  destruct (bk <? k); [|exact Hb]. simpl. lia.
Qed.

Lemma longest_from_bound (a b : str) :
  forall i old best,
    Forall (fun k => k <= i) old -> ends_within i best ->
    ends_within (i + List.length a) (longest_from a b i old best).
Proof.
  induction a as [|ai a IH]; intros i old best Ho Hb; simpl.
  - now rewrite Nat.add_0_r.
  - replace (i + S (List.length a)) with (S i + List.length a) by lia.
    apply IH.
    + apply next_row_bound; [lia | exact Ho].
    + apply scan_row_bound.
      * apply next_row_bound; [lia | exact Ho].
      * destruct best as [[bi bj] bk]. simpl in *. lia.
Qed.

Lemma find_longest_match_bound (a b : str) :
  ends_within (List.length a) (find_longest_match a b).
Proof.
  unfold find_longest_match.
  apply (longest_from_bound a b (i := 0)); [constructor | simpl; lia].
Qed.

(** Any bound that is at least the length of [a] gives the same size:
    the bound of [ratio] cuts nothing off. *)
Lemma matching_size_fuel (f1 : nat) :
  forall f2 a b,
    List.length a <= f1 -> List.length a <= f2 ->
    matching_size f1 a b = matching_size f2 a b.
Proof.
  induction f1 as [|f1 IH]; intros f2 a b H1 H2.
  - destruct a; [|simpl in H1; lia]. destruct f2; reflexivity.
  - destruct f2 as [|f2].
    + destruct a; [|simpl in H2; lia]. reflexivity.
    + simpl. pose proof (find_longest_match_bound a b) as Hb.
      destruct (find_longest_match a b) as [[i j] k]. simpl in Hb.
      destruct (Nat.eqb_spec k 0) as [|Hk]; [reflexivity|].
      f_equal; [f_equal|].
      * destruct ((0 <? i) && (0 <? j)); [|reflexivity].
        apply IH; rewrite length_firstn; lia.
      * destruct ((i + k <? List.length a) && (j + k <? List.length b)); [|reflexivity].
        apply IH; rewrite length_skipn; lia.
Qed.

End DifflibFacts.

(** ** More on the catalog and the engine *)

Module CatalogFacts.

Import Catalog Engine NLP Vocabulary Selection StrFacts SortFacts EngineFacts.

Lemma to_lower_idem (c : ascii) : to_lower (to_lower c) = to_lower c.
Proof.
  destruct c as [b0 b1 b2 b3 b4 b5 b6 b7].
  destruct b0, b1, b2, b3, b4, b5, b6, b7; reflexivity.
Qed.

Lemma lower_idem (s : str) : lower (lower s) = lower s.
Proof.
  unfold lower. rewrite map_map. apply map_ext. intros c. apply to_lower_idem.
Qed.

(** X2: the catalog queries and the lookups of the engine ignore the
    case of their argument: the lower-cased argument gives the same
    books. *)
Theorem queries_ignore_case (books : list Book) (s : str) (limit : Z) :
  get_books_by_genre books (lower s) = get_books_by_genre books s
  /\ get_books_by_author books (lower s) = get_books_by_author books s
  /\ find_book_by_title books (lower s) = find_book_by_title books s
  /\ recommend_by_genre books (lower s) limit = recommend_by_genre books s limit
  /\ recommend_by_author books (lower s) limit = recommend_by_author books s limit
  /\ recommend_similar_books books (lower s) limit = recommend_similar_books books s limit.
Proof.
  assert (Ht : find_book_by_title books (lower s) = find_book_by_title books s).
  { induction books as [|b l IH]; simpl; [reflexivity|].
    now rewrite lower_idem, IH. }
  unfold recommend_by_genre, recommend_by_author, recommend_similar_books,
    get_books_by_genre, get_books_by_author.
  rewrite Ht, lower_idem. repeat split; reflexivity.
Qed.

(** X3: [get_bestsellers(True)] and [get_bestsellers(False)] split the
    catalog: together they hold every book once, and a book is in the
    list of its own flag only. *)
Theorem bestsellers_split_catalog (books : list Book) :
  Permutation (get_bestsellers books true ++ get_bestsellers books false) books
  /\ forall (flag : bool) (b : Book),
       In b (get_bestsellers books flag) <-> In b books /\ bestseller b = flag.
Proof.
  split.
  - unfold get_bestsellers.
    rewrite (filter_ext (fun book => Bool.eqb (bestseller book) false)
                        (fun book => negb (Bool.eqb (bestseller book) true))).
    + apply filter_split_perm.
    + intros b. now destruct (bestseller b).
  - intros flag b. unfold get_bestsellers. rewrite filter_In.
    now rewrite Bool.eqb_true_iff.
Qed.

(** X4: [get_book_by_id] returns a book of the catalog that has the
    identifier, and nothing exactly when no book has it; when the
    identifiers of the catalog are distinct, looking up the identifier of
    a book of the catalog returns that book. *)
Theorem book_by_id_lookup (books : list Book) :
  (forall i : Z,
      match get_book_by_id books i with
      | Some b => In b books /\ id b = i
      | None => forall b, In b books -> id b <> i
      end)
  /\ (NoDup (map id books) ->
      forall b, In b books -> get_book_by_id books (id b) = Some b).
Proof.
  unfold get_book_by_id. split.
  - intros i. destruct (find _ books) as [b|] eqn:E.
    + apply find_some in E as [Hin Hid]. split; [exact Hin|]. now apply Z.eqb_eq.
    + intros b Hb Hi. pose proof (find_none _ _ E b Hb) as H. simpl in H.
      apply Z.eqb_neq in H. contradiction.
  - induction books as [|x l IH]; intros Hnd b Hb; [destruct Hb|].
    simpl in Hnd. inversion Hnd as [|? ? Hx Hl]; subst. simpl.
    destruct Hb as [<-|Hb].
    + now rewrite Z.eqb_refl.
    + destruct (Z.eqb_spec (id x) (id b)) as [E|_]; [|now apply IH].
      exfalso. apply Hx. rewrite E. now apply in_map.
Qed.

End CatalogFacts.

Module RankingFacts.

Import Catalog Engine NLP Vocabulary Selection StrFacts SortFacts EngineFacts.

Lemma sorted_app_cross (l1 l2 : list Book) :
  by_rating_desc (l1 ++ l2) ->
  forall x y, In x l1 -> In y l2 -> (rating y <= rating x)%Q.
Proof.
  unfold by_rating_desc.
  induction l1 as [|a l1 IH]; simpl; intros Hs x y Hx Hy; [destruct Hx|].
  inversion Hs as [|? ? Hl Ha]; subst.
  destruct Hx as [<-|Hx]; [|now apply IH].
  rewrite Forall_forall in Ha. apply Ha. apply in_or_app. now right.
Qed.

Lemma take_top_rated (limit : Z) (pool l : list Book) :
  Permutation l pool -> top_rated limit pool (take limit (sorted_by_rating l)).
Proof.
  intros Hp.
  assert (Hlen : List.length (sorted_by_rating l) = List.length pool).
  { apply Permutation_length. now rewrite sorted_perm. }
  unfold take, top_rated, selection_size.
  set (S := sorted_by_rating l) in *.
  set (m := if (0 <=? limit)%Z then Z.to_nat limit
            else List.length S - Z.to_nat (- limit)).
  replace (if (0 <=? limit)%Z then firstn (Z.to_nat limit) S
           else firstn (List.length S - Z.to_nat (- limit)) S)
    with (firstn m S) by (unfold m; now destruct (0 <=? limit)%Z).
  exists (skipn m S). split; [|split; [|split]].
  - rewrite firstn_skipn. unfold S. now rewrite sorted_perm.
  - rewrite length_firstn, Hlen. unfold m. rewrite Hlen.
    destruct (0 <=? limit)%Z; lia.
  - apply firstn_sorted. apply sorted_sorted.
  - apply sorted_app_cross. rewrite firstn_skipn. apply sorted_sorted.
Qed.

(** X5: each lookup of the engine returns the best rated books of its
    pool (the books of the genre, of the author, of the year, with the
    flag, or the candidates of the reference book): as many as the slice
    [[:limit]] keeps, none of the books left out being rated above a book
    returned.  A negative limit keeps all the books but the [-limit]
    lowest rated. *)
Theorem recommendations_are_top_rated (books : list Book) (limit : Z) :
  (forall g, top_rated limit (get_books_by_genre books g)
                       (recommend_by_genre books g limit))
  /\ (forall a, top_rated limit (get_books_by_author books a)
                          (recommend_by_author books a limit))
  /\ (forall y, top_rated limit (get_books_by_year books y)
                          (recommend_by_year books y limit))
  /\ (forall flag, top_rated limit (get_bestsellers books flag)
                             (recommend_bestsellers books flag limit))
  /\ (forall t,
        match find_book_by_title books t with
        | Some ref => top_rated limit (candidates books ref)
                                (recommend_similar_books books t limit)
        | None => recommend_similar_books books t limit = []
        end).
Proof.
  repeat split; intros;
    try (unfold recommend_by_genre, recommend_by_author, recommend_by_year,
           recommend_bestsellers; apply take_top_rated; reflexivity).
  unfold recommend_similar_books.
  destruct (find_book_by_title books t) as [ref|]; [|reflexivity].
  unfold similar_to. apply take_top_rated. fold (candidates books ref).
  apply filter_split_perm.
Qed.

Lemma take_In (A : Type) (limit : Z) (l : list A) (x : A) :
  In x (take limit l) -> In x l.
Proof.
  unfold take. destruct (0 <=? limit)%Z; apply firstn_In.
Qed.

Lemma ranked_In (limit : Z) (l : list Book) (x : Book) :
  In x (take limit (sorted_by_rating l)) -> In x l.
Proof.
  intros H. apply take_In in H.
  eapply Permutation_in; [apply sorted_perm | exact H].
Qed.

(** X6: [recommend_similar_books] never returns the reference book: every
    book returned is a book of the catalog of the genre of the reference
    (case apart) whose identifier differs from the reference's. *)
Theorem similar_books_exclude_reference (books : list Book) (t : str) (limit : Z) (b : Book) :
  In b (recommend_similar_books books t limit) ->
  exists ref,
    find_book_by_title books t = Some ref
    /\ In b books
    /\ id b <> id ref
    /\ lower (genre b) = lower (genre ref).
Proof.
  unfold recommend_similar_books.
  destruct (find_book_by_title books t) as [ref|]; [|intros []].
  intros H. exists ref. split; [reflexivity|].
  unfold similar_to in H. apply ranked_In in H.
  assert (Hc : In b (candidates books ref)).
  { apply in_app_or in H as [H|H]; apply filter_In in H; tauto. }
  unfold candidates, get_books_by_genre in Hc.
  apply filter_In in Hc as [Hc Hid]. apply filter_In in Hc as [Hin Hg].
  repeat split; [exact Hin | | now apply eqb_eq].
  apply negb_true_iff, Z.eqb_neq in Hid. exact Hid.
Qed.

Lemma similar_books_exclude_reference_witness :
  In ex_other (recommend_similar_books ex_catalog (lit "it") 5)
  /\ exists ref,
       find_book_by_title ex_catalog (lit "it") = Some ref
       /\ In ex_other ex_catalog
       /\ id ex_other <> id ref
       /\ lower (genre ex_other) = lower (genre ref).
Proof.
  assert (H : In ex_other (recommend_similar_books ex_catalog (lit "it") 5))
    by (vm_compute; auto).
  split; [exact H|].
  exact (similar_books_exclude_reference ex_catalog (lit "it") 5 ex_other H).
Defined.

(** X7: [recommend_by_mood] returns books of the catalog of one genre
    (case apart): the genre given, unless it is missing or empty, and
    then the genre of the mood in the table of the engine, "Romance" for
    a mood the table does not hold.  For a mood of the negative list every
    book returned is rated 4.0 or more.  [recommend_by_occasion] does the
    same with "Romance" for a missing genre and 3.5 for the relaxing
    occasions. *)
Theorem mood_and_occasion_floors (books : list Book) (word : str)
    (target : option str) (limit : Z) (b : Book) :
  (In b (recommend_by_mood books word target limit) ->
   In b books
   /\ (mem (lower word) negative_moods = true -> (4 <= rating b)%Q)
   /\ lower (genre b)
      = lower match target with
              | Some (c :: g) => c :: g
              | _ => dict_get mood_to_genre_map (lower word) (lit "Romance")
              end)
  /\ (In b (recommend_by_occasion books word target limit) ->
      In b books
      /\ (mem (lower word) relaxing_occasions = true -> (3.5 <= rating b)%Q)
      /\ lower (genre b)
         = lower match target with
                 | Some (c :: g) => c :: g
                 | _ => lit "Romance"
                 end).
Proof.
  split; intros H.
  - unfold recommend_by_mood in H. apply ranked_In in H.
    set (g := match target with
              | Some (c :: g) => c :: g
              | _ => dict_get mood_to_genre_map (lower word) (lit "Romance")
              end) in *.
    destruct (mem (lower word) negative_moods).
    + apply filter_In in H as [H Hr]. apply filter_In in H as [Hin Hg].
      repeat split; [exact Hin | | now apply eqb_eq].
      intros _. now apply Qle_bool_iff.
    + apply filter_In in H as [Hin Hg].
      repeat split; [exact Hin | discriminate | now apply eqb_eq].
  - unfold recommend_by_occasion in H. apply ranked_In in H.
    set (g := match target with
              | Some (c :: g) => c :: g
              | _ => lit "Romance"
              end) in *.
    destruct (mem (lower word) relaxing_occasions).
    + apply filter_In in H as [H Hr]. apply filter_In in H as [Hin Hg].
      repeat split; [exact Hin | | now apply eqb_eq].
      intros _. now apply Qle_bool_iff.
    + apply filter_In in H as [Hin Hg].
      repeat split; [exact Hin | discriminate | now apply eqb_eq].
Qed.

End RankingFacts.

(** ** The similarity of two books *)

Module SimilarityFacts.

Import Catalog Engine NLP Vocabulary StrFacts SortFacts.

Lemma eqb_sym (a b : str) : Str.eqb a b = Str.eqb b a.
Proof.
  destruct (Str.eqb a b) eqn:E.
  - apply eqb_eq in E. subst. symmetry. apply eqb_refl.
  - destruct (Str.eqb b a) eqn:E'; [|reflexivity].
    apply eqb_eq in E'. subst. now rewrite eqb_refl in E.
Qed.

Lemma py_max_bounds (x : Q) : (x <= 1)%Q -> (0 <= py_max 0 x <= 1)%Q.
Proof.
  intros H. unfold py_max. destruct (Qltb 0 x) eqn:E.
  - apply Qltb_lt in E. split; [now apply Qlt_le_weak | exact H].
  - split; [apply Qle_refl | discriminate].
Qed.

Lemma py_max_compat (x y : Q) : (x == y)%Q -> (py_max 0 x == py_max 0 y)%Q.
Proof.
  intros H. unfold py_max.
  destruct (Qltb 0 x) eqn:Ex; destruct (Qltb 0 y) eqn:Ey; try exact H;
    try reflexivity.
  - apply Qltb_lt in Ex. apply Qltb_ge in Ey. rewrite H in Ex.
    exfalso. exact (Qlt_not_le _ _ Ex Ey).
  - apply Qltb_lt in Ey. apply Qltb_ge in Ex. rewrite H in Ex.
    exfalso. exact (Qlt_not_le _ _ Ey Ex).
Qed.

(** X8: the similarity of two books lies between 0 and 1 and does not
    depend on the order of the two books. *)
Theorem similarity_bounded_and_symmetric (book1 book2 : Book) :
  (0 <= calculate_similarity book1 book2 <= 1)%Q
  /\ (calculate_similarity book1 book2 == calculate_similarity book2 book1)%Q.
Proof.
  unfold calculate_similarity. split.
  - assert (Hr : (1 - Qabs (rating book1 - rating book2) / 5 <= 1)%Q).
    { pose proof (Qabs_nonneg (rating book1 - rating book2)) as H.
      unfold Qdiv.
      assert (0 <= Qabs (rating book1 - rating book2) * / 5)%Q.
      { apply Qmult_le_0_compat; [exact H | discriminate]. }
      lra. }
    assert (Hy : (1 - inject_Z (Z.abs (year book1 - year book2)) / 50 <= 1)%Q).
    { unfold Qdiv.
      assert (0 <= inject_Z (Z.abs (year book1 - year book2)) * / 50)%Q.
      { apply Qmult_le_0_compat; [|discriminate].
        change 0%Q with (inject_Z 0). rewrite <- Zle_Qle. apply Z.abs_nonneg. }
      lra. }
    apply py_max_bounds in Hr. apply py_max_bounds in Hy.
    set (r := py_max 0 (1 - Qabs (rating book1 - rating book2) / 5)) in *.
    set (y := py_max 0 (1 - inject_Z (Z.abs (year book1 - year book2)) / 50)) in *.
    destruct (Str.eqb (genre book1) (genre book2));
      destruct (Str.eqb (author book1) (author book2)); lra.
  - rewrite (eqb_sym (genre book2)), (eqb_sym (author book2)).
    assert (Hr : (py_max 0 (1 - Qabs (rating book1 - rating book2) / 5)
                  == py_max 0 (1 - Qabs (rating book2 - rating book1) / 5))%Q).
    { apply py_max_compat. now rewrite (Qabs_Qminus (rating book1)). }
    assert (Hy : Z.abs (year book1 - year book2) = Z.abs (year book2 - year book1))
      by lia.
    rewrite Hy, Hr. reflexivity.
Qed.

End SimilarityFacts.

(** ** What [process] takes in and gives back *)

Module ProcessFacts.

Import NLP Vocabulary Schema StrFacts PipelineFacts CatalogFacts.

Lemma is_space_to_lower (c : ascii) : is_space (to_lower c) = is_space c.
Proof.
  destruct c as [b0 b1 b2 b3 b4 b5 b6 b7].
  destruct b0, b1, b2, b3, b4, b5, b6, b7; reflexivity.
Qed.

Lemma lstrip_lower (s : str) : lstrip (lower s) = lower (lstrip s).
Proof.
  induction s as [|c s IH]; simpl; [reflexivity|].
  rewrite is_space_to_lower. now destruct (is_space c).
Qed.

Lemma strip_lower (s : str) : strip (lower s) = lower (strip s).
Proof.
  unfold strip, rstrip. rewrite lstrip_lower.
  unfold lower at 1. rewrite <- map_rev. fold (lower (rev (lstrip s))).
  rewrite lstrip_lower. unfold lower. now rewrite map_rev.
Qed.

Lemma lstrip_idem (s : str) : lstrip (lstrip s) = lstrip s.
Proof.
  induction s as [|c s IH]; simpl; [reflexivity|].
  destruct (is_space c) eqn:E; [exact IH|]. simpl. now rewrite E.
Qed.

Lemma lstrip_head (s u : str) (c : ascii) :
  lstrip s = c :: u -> is_space c = false.
Proof.
  induction s as [|x s IH]; simpl; [discriminate|].
  destruct (is_space x) eqn:E; [exact IH|].
  intros H. injection H as <- _. exact E.
Qed.

Lemma lstrip_snoc (l : str) (c : ascii) :
  is_space c = false -> lstrip (l ++ [c]) = lstrip l ++ [c].
Proof.
  intros Hc. induction l as [|x l IH]; simpl; [now rewrite Hc|].
  now destruct (is_space x).
Qed.

Lemma rstrip_cons (c : ascii) (s : str) :
  is_space c = false -> rstrip (c :: s) = c :: rstrip s.
Proof.
  intros Hc. unfold rstrip. simpl.
  rewrite lstrip_snoc by exact Hc. rewrite rev_app_distr. reflexivity.
Qed.

Lemma strip_idem (s : str) : strip (strip s) = strip s.
Proof.
  unfold strip.
  assert (H : lstrip (rstrip (lstrip s)) = rstrip (lstrip s)).
  { destruct (lstrip s) as [|c u] eqn:E; [reflexivity|].
    pose proof (lstrip_head _ E) as Hc.
    rewrite rstrip_cons by exact Hc. simpl. now rewrite Hc. }
  rewrite H. unfold rstrip. now rewrite rev_involutive, lstrip_idem.
Qed.

(** X9: the classification ignores the case of the utterance and the
    whitespace around it: the lower-cased utterance and the stripped
    utterance are processed like the utterance itself. *)
Theorem process_ignores_case_and_margins (text : str) :
  process (lower text) = process text
  /\ process (strip text) = process text.
Proof.
  unfold process, prepare. split.
  - now rewrite lower_idem.
  - now rewrite <- strip_lower, strip_idem.
Qed.

Lemma search_ngroups (p text : str) (m : Re.Match) :
  Re.search p text = Ok (Some m) ->
  exists r, Re.compile p = Some (r, Re.m_ngroups m).
Proof.
  unfold Re.search. destruct (Re.compile p) as [[r n]|]; [|discriminate].
  destruct (Re.search_from r 0 None text) as [[[b e] cs]|]; [|discriminate].
  intros H. injection H as <-. now exists r.
Qed.

Lemma table_groups_fit :
  forallb (fun entry => forallb (groups_fit (fst entry)) (snd entry)) intent_patterns
  = true.
Proof. vm_compute. reflexivity. Qed.

Lemma bind_ok (A B : Type) (x : result A) (f : A -> result B) (b : B) :
  bind x f = Ok b -> exists a, x = Ok a /\ f a = Ok b.
Proof.
  destruct x as [a|e]; simpl; [|discriminate]. intros H. now exists a.
Qed.

(** The shape of what [process] returns: [unknown], or an intent of the
    table with the entities of its name. *)
Lemma process_shape (text : str) (i : Intent) :
  process text = Ok i ->
  i = unknown
  \/ (In (name i) (map fst intent_patterns)
      /\ map fst (entities i) = expected_keys (name i)
      /\ forallb well_typed (entities i) = true).
Proof.
  intros E.
  unfold process in E. remember (prepare text) as t eqn:Et. clear Et.
  apply try_intents_found in E.
  destruct E as [[-> _] | (t1 & ps & t2 & ps1 & p & ps2 & m & Ht & _ & Hps & _ & Hs & Hm)].
  - now left.
  - right.
    assert (Hin : In (name i, ps) intent_patterns)
      by (rewrite Ht; apply in_or_app; right; now left).
    assert (Hp : In p ps) by (rewrite Hps; apply in_or_app; right; now left).
    pose proof table_groups_fit as Hfit.
    rewrite forallb_forall in Hfit. specialize (Hfit _ Hin). simpl in Hfit.
    rewrite forallb_forall in Hfit. specialize (Hfit _ Hp).
    destruct (search_ngroups _ _ Hs) as [r Hc].
    unfold groups_fit in Hfit. rewrite Hc in Hfit.
    apply (in_map fst) in Hin. simpl fst in Hin.
    split; [exact Hin|].
    unfold on_match in Hm. apply bind_ok in Hm as (ents & He & Hi).
    clear Ht Hps Hp Hs Hc.
    destruct i as [n c es]. injection Hi as _ <-. simpl in Hin, Hfit |- *.
    destruct (0 <? Re.m_ngroups m) eqn:Eg.
    + unfold extract_entities in He.
      repeat (destruct Hin as [Hn|Hin];
        [ subst n; cbn in He, Hfit;
          repeat match type of He with
                 | bind _ _ = Ok _ =>
                     let v := fresh "v" in let H1 := fresh "H" in
                     apply bind_ok in He as (v & H1 & He)
                 | (if ?c then _ else _) = Ok _ => destruct c
                 | match ?x with Some _ => _ | None => _ end = Ok _ => destruct x
                 end;
          try (injection He as <-; split; reflexivity);
          try (apply Nat.eqb_eq in Hfit; rewrite Hfit in Eg; discriminate)
        | ]).
      destruct Hin.
    + apply Nat.ltb_ge in Eg. injection He as <-.
      assert (E0 : Re.m_ngroups m = 0) by lia. rewrite E0 in Hfit.
      repeat (destruct Hin as [Hn|Hin];
        [ subst n; try (cbn in Hfit; discriminate); try (split; reflexivity) | ]).
      destruct Hin.
Qed.

(** X10: an intent that [process] returns bears one of the eight names
    of the table or the name "unknown", and its entities are those the
    name announces: [target] for a genre or a similar book, [author],
    [year] (an integer), [mood] and [target], [occasion] and [target],
    and none for the bestseller intents and for "unknown". *)
Theorem intent_entities_follow_name (text : str) :
  match process text with
  | Raise _ => True
  | Ok i =>
      In (name i) ("unknown"%string :: map fst intent_patterns)
      /\ map fst (entities i) = expected_keys (name i)
      /\ forallb well_typed (entities i) = true
  end.
Proof.
  destruct (process text) as [i|e] eqn:E; [|exact I].
  destruct (process_shape _ E) as [-> | (Hn & Hk & Ht)].
  - repeat split. now left.
  - split; [now right|]. now split.
Qed.

End ProcessFacts.

(** ** When [process] fails *)

Module SafetyFacts.

Import NLP Vocabulary Safety StrFacts PipelineFacts ProcessFacts.

Lemma rep_match_factor (a : Re.atom) (g : bool) (k : Re.cont) (cs : Re.caps) (s : str) :
  forall lo hi pos prev res,
    Re.rep_match a g k cs lo hi pos prev s = Some res ->
    exists n prev',
      lo <= n /\ n <= List.length s
      /\ forallb (Re.atom_ok a) (firstn n s) = true
      /\ k (pos + n) prev' (skipn n s) cs = Some res.
Proof.
  induction s as [|c s IH]; intros lo hi pos prev res H.
  - exists 0, prev. simpl in H.
    destruct lo as [|lo]; [|destruct g; discriminate].
    rewrite Nat.add_0_r. repeat split; auto. simpl.
    destruct g; [exact H|].
    destruct (k pos prev [] cs); [exact H | discriminate].
  - simpl in H.
    assert (Hstop :
      match lo with O => k pos prev (c :: s) cs | S _ => None end = Some res ->
      exists n prev',
        lo <= n /\ n <= List.length (c :: s)
        /\ forallb (Re.atom_ok a) (firstn n (c :: s)) = true
        /\ k (pos + n) prev' (skipn n (c :: s)) cs = Some res).
    { intros Hk. destruct lo as [|lo]; [|discriminate].
      exists 0, prev. rewrite Nat.add_0_r. repeat split; simpl; auto; lia. }
    assert (Hmore :
      (if Re.atom_ok a c && Re.more_allowed hi
       then Re.rep_match a g k cs (pred lo) (Re.dec_hi hi) (S pos) (Some c) s
       else None) = Some res ->
      exists n prev',
        lo <= n /\ n <= List.length (c :: s)
        /\ forallb (Re.atom_ok a) (firstn n (c :: s)) = true
        /\ k (pos + n) prev' (skipn n (c :: s)) cs = Some res).
    { intros Hm. destruct (Re.atom_ok a c) eqn:Ec; [|discriminate].
      destruct (Re.more_allowed hi); [|discriminate]. simpl in Hm.
      apply IH in Hm as (n & prev' & Hlo & Hn & Hall & Hk).
      exists (S n), prev'. simpl. rewrite Ec.
      replace (pos + S n) with (S pos + n) by lia.
      repeat split; auto; lia. }
    destruct g.
    + destruct (if Re.atom_ok a c && Re.more_allowed hi
                then Re.rep_match a true k cs (pred lo) (Re.dec_hi hi) (S pos) (Some c) s
                else None) as [x|] eqn:E.
      * injection H as ->. apply Hmore. reflexivity.
      * apply Hstop. exact H.
    + destruct (match lo with O => k pos prev (c :: s) cs | S _ => None end)
        as [x|] eqn:E.
      * injection H as ->. apply Hstop. reflexivity.
      * apply Hmore. exact H.
Qed.

Lemma step_ok_same (text : str) (r : Re.regex) (cs : Re.caps) :
  (forall g, sets g r = false) -> step_ok text r cs cs.
Proof.
  intros H. unfold step_ok. split; [auto|]. split; [|auto].
  intros g Hg. rewrite H in Hg. discriminate.
Qed.

Lemma skipn_pre (pre s : str) : skipn (List.length pre) (pre ++ s) = s.
Proof. induction pre; simpl; auto. Qed.

Lemma lookup_cons (g m : nat) (span : nat * nat) (cs : Re.caps) :
  Re.lookup g ((m, span) :: cs) = if m =? g then Some span else Re.lookup g cs.
Proof. reflexivity. Qed.

Lemma factor_here (text : str) (r : Re.regex) (k : Re.cont) pos prev s cs res :
  (forall g, sets g r = false) ->
  k pos prev s cs = Some res ->
  exists n prev' cs',
    n <= List.length s
    /\ k (pos + n) prev' (skipn n s) cs' = Some res
    /\ step_ok text r cs cs'.
Proof.
  intros Hr H. exists 0, prev, cs. rewrite Nat.add_0_r.
  split; [lia|]. split; [exact H|]. now apply step_ok_same.
Qed.

(** A successful match of [r] followed by [k] is a run of [k] after [r]
    has read [n] characters and updated the groups. *)
Lemma rmatch_factor (text : str) (r : Re.regex) :
  forall (k : Re.cont) pos prev s cs res pre,
    text = pre ++ s -> pos = List.length pre ->
    Re.rmatch r k pos prev s cs = Some res ->
    exists n prev' cs',
      n <= List.length s
      /\ k (pos + n) prev' (skipn n s) cs' = Some res
      /\ step_ok text r cs cs'.
Proof.
  induction r as [|a|a lo hi gr|r' IH|r1 IH1 r2 IH2|r1 IH1 r2 IH2|m r' IH| |];
    intros k pos prev s cs res pre Ht Hp H; simpl in H.
  - eapply factor_here; [intros g; reflexivity | exact H].
  - destruct s as [|c s]; [discriminate|].
    destruct (Re.atom_ok a c); [|discriminate].
    exists 1, (Some c), cs. replace (pos + 1) with (S pos) by lia.
    split; [simpl; lia|]. split; [exact H|]. now apply step_ok_same.
  - apply rep_match_factor in H as (n & prev' & _ & Hn & _ & Hk).
    exists n, prev', cs.
    split; [exact Hn|]. split; [exact Hk|]. now apply step_ok_same.
  - destruct (Re.rmatch r' k pos prev s cs) as [x|] eqn:E.
    + injection H as ->.
      destruct (IH _ _ _ _ _ _ _ Ht Hp E) as (n & prev' & cs' & Hn & Hk & H1 & _ & H3).
      exists n, prev', cs'.
      split; [exact Hn|]. split; [exact Hk|].
      split; [exact H1|]. split; [intros g Hg; discriminate | exact H3].
    + eapply factor_here; [intros g; reflexivity | exact H].
  - destruct (IH1 _ _ _ _ _ _ _ Ht Hp H)
      as (n1 & prev1 & cs1 & Hn1 & Hk1 & H11 & H12 & H13).
    assert (Ht' : text = (pre ++ firstn n1 s) ++ skipn n1 s)
      by (rewrite <- app_assoc, firstn_skipn; exact Ht).
    assert (Hp' : pos + n1 = List.length (pre ++ firstn n1 s))
      by (rewrite length_app, length_firstn; lia).
    destruct (IH2 _ _ _ _ _ _ _ Ht' Hp' Hk1)
      as (n2 & prev2 & cs2 & Hn2 & Hk2 & H21 & H22 & H23).
    rewrite length_skipn in Hn2. rewrite skipn_skipn in Hk2.
    exists (n1 + n2), prev2, cs2.
    replace (pos + (n1 + n2)) with (pos + n1 + n2) by lia.
    replace (skipn (n1 + n2) s) with (skipn (n2 + n1) s) by (f_equal; lia).
    split; [lia|]. split; [exact Hk2|].
    split; [auto|]. split.
    + intros g Hg. simpl in Hg. apply orb_true_iff in Hg as [Hg|Hg]; auto.
    + intros Hd Hi. simpl in Hd. apply andb_true_iff in Hd as [Hd1 Hd2]. auto.
  - destruct (Re.rmatch r1 k pos prev s cs) as [x|] eqn:E.
    + injection H as ->.
      destruct (IH1 _ _ _ _ _ _ _ Ht Hp E) as (n & prev' & cs' & Hn & Hk & H1 & H2 & H3).
      exists n, prev', cs'.
      split; [exact Hn|]. split; [exact Hk|].
      split; [exact H1|]. split.
      * intros g Hg. simpl in Hg. apply andb_true_iff in Hg as [Hg _]. auto.
      * intros Hd. simpl in Hd. apply andb_true_iff in Hd as [Hd _]. auto.
    + destruct (IH2 _ _ _ _ _ _ _ Ht Hp H) as (n & prev' & cs' & Hn & Hk & H1 & H2 & H3).
      exists n, prev', cs'.
      split; [exact Hn|]. split; [exact Hk|].
      split; [exact H1|]. split.
      * intros g Hg. simpl in Hg. apply andb_true_iff in Hg as [_ Hg]. auto.
      * intros Hd. simpl in Hd. apply andb_true_iff in Hd as [_ Hd]. auto.
  - destruct (is_digit_rep r') eqn:Ed.
    + destruct r' as [|a0|a0 lo hi gr|?|? ?|? ?|? ?| |]; try discriminate.
      destruct a0; try discriminate. destruct lo as [|lo]; [discriminate|].
      simpl in H.
      apply rep_match_factor in H as (n & prev' & Hlo & Hn & Hall & Hk).
      exists n, prev', ((m, (pos, pos + n)) :: cs).
      split; [exact Hn|]. split; [exact Hk|]. split; [|split].
      * intros g Hg. rewrite lookup_cons. destruct (m =? g); [discriminate|exact Hg].
      * intros g Hg. simpl in Hg. rewrite orb_false_r in Hg.
        rewrite lookup_cons, Hg. discriminate.
      * intros _ Hi a b. rewrite lookup_cons.
        destruct (m =? 1); [|apply Hi].
        intros Hs. injection Hs as <- <-.
        assert (Hsl : slice text pos (pos + n) = firstn n s).
        { unfold slice. subst text pos. rewrite skipn_pre. f_equal. lia. }
        unfold digit_span. rewrite Hsl. split; [|exact Hall].
        destruct s as [|c s]; [simpl in Hn; lia|].
        destruct n as [|n]; [lia|]. discriminate.
    + destruct (IH _ _ _ _ _ _ _ Ht Hp H) as (n & prev' & cs' & Hn & Hk & H1 & H2 & H3).
      exists n, prev', ((m, (pos, pos + n)) :: cs').
      split; [exact Hn|]. split; [exact Hk|]. split; [|split].
      * intros g Hg. rewrite lookup_cons. destruct (m =? g); [discriminate|auto].
      * intros g Hg. simpl in Hg. rewrite lookup_cons.
        destruct (m =? g); [discriminate|]. simpl in Hg. auto.
      * intros Hd Hi a b. simpl in Hd. rewrite Ed in Hd. simpl in Hd.
        apply andb_true_iff in Hd as [Hm Hd]. rewrite lookup_cons.
        apply negb_true_iff in Hm. rewrite Hm. now apply H3.
  - destruct (Re.at_end s); [|discriminate]. eapply factor_here; [intros g; reflexivity | exact H].
  - destruct (Re.at_boundary prev s); [|discriminate]. eapply factor_here; [intros g; reflexivity | exact H].
Qed.

Lemma match_here_caps (text : str) (r : Re.regex) pos prev s pre e cs :
  text = pre ++ s -> pos = List.length pre ->
  Re.match_here r pos prev s = Some (e, cs) ->
  (sets 1 r = true -> Re.lookup 1 cs <> None)
  /\ (digit_group r = true -> digits_inv text cs).
Proof.
  intros Ht Hp H. unfold Re.match_here in H.
  eapply rmatch_factor in H as (n & prev' & cs' & _ & Hk & _ & H2 & H3); eauto.
  unfold Re.accept in Hk. injection Hk as _ <-.
  split; [apply H2|]. intros Hd. apply H3; [exact Hd|].
  intros a b Hl. discriminate.
Qed.

Lemma search_from_caps (text : str) (r : Re.regex) (s : str) :
  forall pos prev pre b e cs,
    text = pre ++ s -> pos = List.length pre ->
    Re.search_from r pos prev s = Some (b, e, cs) ->
    (sets 1 r = true -> Re.lookup 1 cs <> None)
    /\ (digit_group r = true -> digits_inv text cs).
Proof.
  induction s as [|c s IH]; intros pos prev pre b e cs Ht Hp H; simpl in H.
  - destruct (Re.match_here r pos prev []) as [[e' cs']|] eqn:E; [|discriminate].
    injection H as _ <- <-. eapply match_here_caps; eauto.
  - destruct (Re.match_here r pos prev (c :: s)) as [[e' cs']|] eqn:E.
    + injection H as _ <- <-. eapply match_here_caps; eauto.
    + apply (IH (S pos) (Some c) (pre ++ [c]) b e cs); [| |exact H].
      * rewrite <- app_assoc. exact Ht.
      * rewrite length_app. simpl. lia.
Qed.

(** What a match tells about group 1. *)
Lemma search_group1 (p text : str) (m : Re.Match) (r : Re.regex) (k : nat) :
  Re.compile p = Some (r, k) ->
  Re.search p text = Ok (Some m) ->
  Re.m_ngroups m = k
  /\ (sets 1 r = true -> exists g, Re.group m 1 = Some g)
  /\ (sets 1 r = true -> digit_group r = true ->
      exists g, Re.group m 1 = Some g /\ g <> [] /\ forallb is_decimal g = true).
Proof.
  intros Hc H. unfold Re.search in H. rewrite Hc in H.
  destruct (Re.search_from r 0 None text) as [[[b e] cs]|] eqn:E; [|discriminate].
  injection H as <-. split; [reflexivity|].
  destruct (@search_from_caps text r text 0 None [] b e cs eq_refl eq_refl E) as [H1 H2].
  unfold Re.group. simpl.
  split.
  - intros Hs. specialize (H1 Hs).
    destruct (Re.lookup 1 cs) as [[i j]|]; [|congruence]. eauto.
  - intros Hs Hd. specialize (H1 Hs). specialize (H2 Hd).
    destruct (Re.lookup 1 cs) as [[i j]|] eqn:El; [|congruence].
    destruct (H2 i j El) as [Hne Hall]. eauto.
Qed.

Lemma py_int_digits (g : str) :
  g <> [] -> forallb is_decimal g = true -> exists z, py_int (Some g) = Ok z.
Proof.
  intros Hne Hall. unfold py_int. destruct g as [|c g]; [congruence|].
  rewrite Hall. eauto.
Qed.

(** A match of a safe pattern always yields an intent. *)
Lemma on_match_safe (n : string) (p text : str) (m : Re.Match) :
  safe n p = true ->
  Re.search p text = Ok (Some m) ->
  exists i, on_match n p text m = Ok i.
Proof.
  unfold safe. destruct (Re.compile p) as [[r k]|] eqn:Hc; [|discriminate].
  intros Hs H.
  destruct (@search_group1 _ _ _ _ _ Hc H) as (Hk & H1 & H2).
  unfold on_match. rewrite Hk.
  destruct k as [|k]; [simpl; eauto|].
  simpl in Hs. replace (0 <? S k) with true by reflexivity.
  unfold extract_entities, name_in in *. simpl existsb in *.
  destruct (String.eqb n "recommend_by_genre");
    destruct (String.eqb n "recommend_similar");
    destruct (String.eqb n "recommend_by_author");
    destruct (String.eqb n "books_by_year");
    destruct (String.eqb n "recommend_by_mood");
    destruct (String.eqb n "recommend_by_occasion");
    simpl in Hs |- *;
    try (destruct (H1 Hs) as [g Hg]; unfold group1_strip; rewrite Hg; simpl;
         try destruct (_find_best_author_match (strip g)); simpl; eauto; fail);
    try (apply andb_true_iff in Hs as [Hs Hd];
         destruct (H2 Hs Hd) as (g & Hg & Hne & Hall); rewrite Hg;
         destruct (@py_int_digits _ Hne Hall) as [z Hz]; rewrite Hz;
         destruct (contains text _); simpl; eauto; fail);
    simpl; eauto.
Qed.

(** A match of a pattern of [recommend_by_author] fails only on an
    unset group. *)
Lemma on_match_author_raise (p text : str) (m : Re.Match) (e : exn) :
  on_match "recommend_by_author" p text m = Raise e ->
  e = AttributeError /\ Re.group m 1 = None.
Proof.
  unfold on_match. destruct (0 <? Re.m_ngroups m); [|discriminate].
  unfold extract_entities. cbn [name_in existsb String.eqb Ascii.eqb Bool.eqb orb].
  unfold group1_strip. destruct (Re.group m 1) as [g|]; simpl.
  - destruct (_find_best_author_match (strip g)); discriminate.
  - intros H. injection H as <-. auto.
Qed.

(** Where a failure of the loops comes from. *)
Lemma try_patterns_raise (n : string) (ps : list str) (text : str) (e : exn) :
  try_patterns n ps text = Raise e ->
  exists ps1 p ps2,
    ps = ps1 ++ p :: ps2
    /\ forallb (unmatched text) ps1 = true
    /\ (Re.search p text = Raise e
        \/ exists m, Re.search p text = Ok (Some m)
                     /\ on_match n p text m = Raise e).
Proof.
  induction ps as [|p ps IH]; simpl; [discriminate|].
  destruct (Re.search p text) as [[m|]|e'] eqn:Es; simpl.
  - destruct (on_match n p text m) as [i|e'] eqn:Em; simpl; [discriminate|].
    intros H. injection H as ->.
    exists [], p, ps. repeat split. right. exists m. auto.
  - intros H. destruct (IH H) as (ps1 & q & ps2 & -> & Hu & Hq).
    exists (p :: ps1), q, ps2. repeat split; auto.
    simpl. unfold unmatched at 1. now rewrite Es.
  - intros H. injection H as ->. exists [], p, ps. repeat split. now left.
Qed.

Lemma try_intents_raise (table : list (string * list str)) (text : str) (e : exn) :
  try_intents table text = Raise e ->
  exists t1 n ps t2 ps1 p ps2,
    table = t1 ++ (n, ps) :: t2
    /\ no_pattern_matches t1 text = true
    /\ ps = ps1 ++ p :: ps2
    /\ forallb (unmatched text) ps1 = true
    /\ (Re.search p text = Raise e
        \/ exists m, Re.search p text = Ok (Some m)
                     /\ on_match n p text m = Raise e).
Proof.
  induction table as [|[n ps] table IH]; simpl; [discriminate|].
  destruct (try_patterns n ps text) as [[i|]|e'] eqn:Ep; simpl; [discriminate| |].
  - intros H. destruct (IH H) as (t1 & n' & qs & t2 & ps1 & p & ps2 & -> & Hno & Hq & Hu & Hr).
    apply try_patterns_none in Ep.
    exists ((n, ps) :: t1), n', qs, t2, ps1, p, ps2. repeat split; auto.
    unfold no_pattern_matches. simpl. now rewrite Ep.
  - intros H. injection H as ->.
    apply try_patterns_raise in Ep as (ps1 & p & ps2 & Hps & Hu & Hr).
    exists [], n, ps, table, ps1, p, ps2. repeat split; auto.
Qed.

Lemma table_safe_or_optional :
  forallb (fun entry => forallb (safe_or_optional (fst entry)) (snd entry))
          intent_patterns = true.
Proof. vm_compute. reflexivity. Qed.

(** X11: [process] fails in one way only: it raises [AttributeError]
    when the first pattern of the table that matches the prepared text
    is one of the two patterns of [recommend_by_author] whose group is
    optional, and that group took no part in the match. *)
Theorem process_fails_only_on_unset_author_group (text : str) :
  match process text with
  | Ok _ => True
  | Raise e =>
      e = AttributeError
      /\ exists p m,
           In p optional_author_patterns
           /\ first_match intent_patterns (prepare text) "recommend_by_author" p m
           /\ Re.group m 1 = None
  end.
Proof.
  destruct (process text) as [i|e] eqn:E; [exact I|].
  unfold process in E. remember (prepare text) as t eqn:Et. clear Et.
  apply try_intents_raise in E
    as (t1 & n & ps & t2 & ps1 & p & ps2 & Ht & Hno & Hps & Hu & Hr).
  assert (Hin : In (n, ps) intent_patterns)
    by (rewrite Ht; apply in_or_app; right; now left).
  assert (Hp : In p ps) by (rewrite Hps; apply in_or_app; right; now left).
  pose proof table_safe_or_optional as Hsafe.
  rewrite forallb_forall in Hsafe. specialize (Hsafe _ Hin). simpl in Hsafe.
  rewrite forallb_forall in Hsafe. specialize (Hsafe _ Hp).
  unfold safe_or_optional in Hsafe. apply orb_true_iff in Hsafe as [Hsafe|Hopt].
  - exfalso. destruct Hr as [Hr | (m & Hs & Hm)].
    + unfold safe in Hsafe. unfold Re.search in Hr.
      destruct (Re.compile p) as [[r k]|]; [|discriminate].
      destruct (Re.search_from r 0 None t) as [[[b e'] cs]|]; discriminate.
    + destruct (@on_match_safe _ _ _ _ Hsafe Hs) as [i Hi]. congruence.
  - apply andb_true_iff in Hopt as [Hopt Hc].
    apply andb_true_iff in Hopt as [Hn Hmem].
    apply String.eqb_eq in Hn. subst n.
    destruct Hr as [Hr | (m & Hs & Hm)].
    + exfalso. unfold compiles in Hc. unfold Re.search in Hr.
      destruct (Re.compile p) as [[r k]|]; [|discriminate].
      destruct (Re.search_from r 0 None t) as [[[b e'] cs]|]; discriminate.
    + apply on_match_author_raise in Hm as [-> Hg].
      split; [reflexivity|]. exists p, m. split; [|split; [|exact Hg]].
      * unfold mem in Hmem. apply existsb_exists in Hmem as (q & Hq & Heq).
        apply eqb_eq in Heq. now subst q.
      * exists t1, ps, t2, ps1, ps2. repeat split; auto.
Qed.

End SafetyFacts.

(** ** The other methods of [NLPPipeline] *)

Module ToolFacts.

Import NLP NLPTools Vocabulary ToolVocabulary StrFacts CatalogFacts SynonymFacts.

(** *** [_validate_genre] *)

Lemma validate_available_or_same (g : str) :
  In (_validate_genre g) available_genres \/ _validate_genre g = g.
Proof.
  unfold _validate_genre.
  destruct (find (fun available => Str.eqb _ _) available_genres) as [a|] eqn:E1.
  - left. now apply find_some in E1.
  - destruct (find (fun available => _ || _) available_genres) as [a|] eqn:E2.
    + left. now apply find_some in E2.
    + now right.
Qed.

Lemma validate_canonical (g a : str) :
  In a available_genres -> lower g = lower a -> _validate_genre g = a.
Proof.
  intros Hin Hl. unfold _validate_genre. rewrite Hl. clear Hl.
  simpl in Hin.
  repeat (destruct Hin as [Ha|Hin]; [subst a; vm_compute; reflexivity|]).
  destruct Hin.
Qed.

(** X12: [_validate_genre] returns a genre of its list or the input as
    it is; an input equal to a genre of the list, case apart, gives that
    genre; validating twice changes nothing; and the empty input is
    taken for the first genre of the list, which contains it. *)
Theorem validate_genre_canonical_and_idempotent (g : str) :
  (In (_validate_genre g) available_genres \/ _validate_genre g = g)
  /\ (forall a, In a available_genres -> lower g = lower a -> _validate_genre g = a)
  /\ _validate_genre (_validate_genre g) = _validate_genre g
  /\ _validate_genre [] = lit "Thriller".
Proof.
  split; [apply validate_available_or_same|].
  split; [intros a; apply validate_canonical|].
  split; [|vm_compute; reflexivity].
  destruct (validate_available_or_same g) as [H|H].
  - now apply validate_canonical.
  - now rewrite H.
Qed.

(** *** The detectors *)

Lemma startswith_app (s post p : str) :
  startswith s p = true -> startswith (s ++ post) p = true.
Proof.
  revert s; induction p as [|x p IH]; intros s H.
  - destruct (s ++ post); reflexivity.
  - destruct s as [|y s]; simpl in *; [discriminate|].
    apply andb_true_iff in H as [H1 H2]. rewrite H1. simpl. auto.
Qed.

Lemma contains_app_r (s post p : str) :
  contains s p = true -> contains (s ++ post) p = true.
Proof.
  induction s as [|y s IH]; simpl; intros H.
  - rewrite orb_false_r in H. destruct p; [apply contains_nil | discriminate].
  - apply orb_true_iff in H as [H|H].
    + apply (startswith_app (y :: s) post) in H. simpl in H.
      rewrite H. reflexivity.
    + rewrite (IH H). apply orb_true_r.
Qed.

Lemma contains_app_l (pre s p : str) :
  contains s p = true -> contains (pre ++ s) p = true.
Proof.
  intros H. induction pre as [|y pre IH]; simpl; [exact H|].
  rewrite IH. apply orb_true_r.
Qed.

(** A substring of a text is a substring of any text around it. *)
Lemma contains_within (pre s post p : str) :
  contains (lower s) p = true -> contains (lower (pre ++ s ++ post)) p = true.
Proof.
  intros H. unfold lower. rewrite !map_app.
  apply contains_app_l, contains_app_r. exact H.
Qed.

(** X13: the two keyword detectors look for substrings of the
    lower-cased text: [_detect_specific_books] returns exactly the titles
    of its list that the lower-cased text contains, so a title found in a
    text is found in every text that contains that text, whatever stands
    around it; and [_suggest_smart_genre] gives a genre for every text
    that contains a text it gives a genre for. *)
Theorem detectors_find_substrings (pre text post : str) :
  (forall title,
      In title (_detect_specific_books text)
      <-> In title famous_titles /\ contains (lower text) title = true)
  /\ (forall title,
        In title (_detect_specific_books text) ->
        In title (_detect_specific_books (pre ++ text ++ post)))
  /\ (_suggest_smart_genre text <> None ->
      _suggest_smart_genre (pre ++ text ++ post) <> None)
  /\ (_suggest_smart_genre text = None <->
      forall kw, In kw (map fst context_mapping) -> contains (lower text) kw = false).
Proof.
  unfold _detect_specific_books, _suggest_smart_genre.
  split; [intros title; apply filter_In|].
  split.
  - intros title H. apply filter_In in H as [Hin Hc]. apply filter_In.
    split; [exact Hin|]. now apply contains_within.
  - assert (Hnone : forall t,
             first_keyword context_mapping t = None <->
             forall kw, In kw (map fst context_mapping) -> contains t kw = false).
    { intros t. induction context_mapping as [|[kw g] l IH]; simpl.
      - split; [intros _ kw []|reflexivity].
      - destruct (contains t kw) eqn:E.
        + split; [discriminate|]. intros H. rewrite (H kw (or_introl eq_refl)) in E.
          discriminate.
        + rewrite IH. split.
          * intros H k [<-|Hk]; auto.
          * intros H k Hk. apply H. now right. }
    split; [|apply Hnone].
    intros H Hn. apply H. apply Hnone. intros kw Hk.
    rewrite Hnone in Hn. specialize (Hn kw Hk).
    destruct (contains (lower text) kw) eqn:E; [|reflexivity].
    apply (contains_within pre text post) in E. congruence.
Qed.

(** *** [_normalize_author_names] *)

(** X14: [_normalize_author_names] leaves a text as it is when no
    variation of the table occurs in it as a whole word. *)
Theorem normalize_leaves_free_text (text : str) :
  free_of famous_authors text = true -> _normalize_author_names text = text.
Proof. apply expand_free. Qed.

(** The instance of X14 for a text without author. *)
Lemma normalize_leaves_free_text_witness :
  free_of famous_authors (lit "gosto de terror") = true
  /\ _normalize_author_names (lit "gosto de terror") = lit "gosto de terror".
Proof.
  split; [vm_compute; reflexivity|].
  apply (normalize_leaves_free_text (lit "gosto de terror")).
  vm_compute. reflexivity.
Defined.

(** *** [_validate_input] *)

Lemma split_from_words (s : str) :
  forall word,
    no_space word = true ->
    Forall (fun w => w <> [] /\ no_space w = true) (split_from word s).
Proof.
  assert (Hrev : forall w, no_space w = true -> w <> [] ->
                           rev w <> [] /\ no_space (rev w) = true).
  { intros w Hw Hne. split.
    - intros H. apply (f_equal (@rev ascii)) in H. rewrite rev_involutive in H.
      simpl in H. contradiction.
    - unfold no_space in *. rewrite forallb_forall in *.
      intros c Hc. apply Hw. now apply in_rev. }
  induction s as [|c s IH]; intros word Hw; simpl.
  - destruct word as [|x w]; constructor; [|constructor].
    apply Hrev; [exact Hw | discriminate].
  - destruct (is_space c) eqn:E.
    + destruct word as [|x w]; [now apply IH|].
      constructor; [apply Hrev; [exact Hw | discriminate]|]. now apply IH.
    + apply IH. simpl. now rewrite E.
Qed.

Lemma split_from_count (s : str) :
  forall word,
    2 * List.length (split_from word s)
    <= List.length s + match word with [] => 1 | _ => 2 end.
Proof.
  induction s as [|c s IH]; intros word; simpl.
  - destruct word; simpl; lia.
  - destruct (is_space c).
    + destruct word; simpl; specialize (IH []); simpl in IH; lia.
    + specialize (IH (c :: word)). simpl in IH. destruct word; lia.
Qed.

Lemma split_from_empty (s : str) :
  forall word,
    split_from word s = [] <-> word = [] /\ forallb is_space s = true.
Proof.
  induction s as [|c s IH]; intros word; simpl.
  - destruct word; split; try discriminate; auto.
    intros [H _]. discriminate.
  - destruct (is_space c) eqn:E; simpl.
    + destruct word.
      * rewrite IH. tauto.
      * split; [discriminate|]. intros [H _]. discriminate.
    + rewrite IH. split; [intros [H _]; discriminate | intros [_ H]; discriminate].
Qed.

(** X15: the words that [_validate_input] counts are the maximal runs of
    characters that are not whitespace: each is non-empty and holds no
    whitespace, there are at most half as many as characters (rounded
    up), and there is none exactly when the text is empty or all
    whitespace; the text is "simple" up to five words. *)
Theorem input_words_counted (text : str) :
  Forall (fun w => w <> [] /\ no_space w = true) (split text)
  /\ word_count (_validate_input text) = List.length (split text)
  /\ 2 * word_count (_validate_input text) <= input_length (_validate_input text) + 1
  /\ (word_count (_validate_input text) = 0 <-> forallb is_space text = true)
  /\ (complexity (_validate_input text) = lit "simple"
      <-> word_count (_validate_input text) <= 5).
Proof.
  unfold _validate_input, split. simpl.
  split; [now apply split_from_words|]. split; [reflexivity|].
  split; [apply (split_from_count text [])|]. split.
  - rewrite List.length_zero_iff_nil, split_from_empty. tauto.
  - destruct (Nat.leb_spec (List.length (split_from [] text)) 5) as [H|H].
    + tauto.
    + split; [discriminate | lia].
Qed.

End ToolFacts.

(** ** Several criteria in one query *)

Module CriteriaFacts.

Import NLP NLPTools Vocabulary ToolVocabulary Safety StrFacts PipelineFacts
       ProcessFacts SafetyFacts.

Lemma compile_year : Re.compile (lit "\b(19|20)\d{2}\b") = Some (year_re, 1).
Proof. reflexivity. Qed.

Ltac all_chars c :=
  destruct c as [b0 b1 b2 b3 b4 b5 b6 b7];
  destruct b0, b1, b2, b3, b4, b5, b6, b7.

Lemma lit_1 (c : ascii) : Re.atom_ok (Re.ALit "1") c = true -> c = "1"%char.
Proof. all_chars c; intros H; try reflexivity; discriminate H. Qed.

Lemma lit_9 (c : ascii) : Re.atom_ok (Re.ALit "9") c = true -> c = "9"%char.
Proof. all_chars c; intros H; try reflexivity; discriminate H. Qed.

Lemma lit_2 (c : ascii) : Re.atom_ok (Re.ALit "2") c = true -> c = "2"%char.
Proof. all_chars c; intros H; try reflexivity; discriminate H. Qed.

Lemma lit_0 (c : ascii) : Re.atom_ok (Re.ALit "0") c = true -> c = "0"%char.
Proof. all_chars c; intros H; try reflexivity; discriminate H. Qed.

(** A match of the year pattern reads four characters that spell a year. *)
Lemma year_match_here (pos : nat) (prev : option ascii) (s : str) (e : nat) (cs : Re.caps) :
  Re.match_here year_re pos prev s = Some (e, cs) ->
  exists w rest, s = w ++ rest /\ year_digits w /\ e = pos + 4.
Proof.
  unfold Re.match_here, year_re. intros H.
  assert (Hw : exists c1 c2 c3 c4 rest,
             s = c1 :: c2 :: c3 :: c4 :: rest
             /\ ((Re.atom_ok (Re.ALit "1") c1 = true /\ Re.atom_ok (Re.ALit "9") c2 = true)
                 \/ (Re.atom_ok (Re.ALit "2") c1 = true /\ Re.atom_ok (Re.ALit "0") c2 = true))
             /\ is_decimal c3 = true /\ is_decimal c4 = true /\ e = pos + 4).
  { destruct s as [|c1 [|c2 [|c3 [|c4 [|c5 rest]]]]];
      cbn -[Re.atom_ok Re.at_boundary] in H;
      repeat match type of H with
             | context [if ?c then _ else _] =>
                 let E := fresh "E" in destruct c eqn:E;
                 cbn -[Re.atom_ok Re.at_boundary] in H
             | context [match ?c with Some _ => _ | None => _ end] =>
                 let E := fresh "E" in destruct c eqn:E;
                 cbn -[Re.atom_ok Re.at_boundary] in H
             end;
      try discriminate.
    all: inversion H; subst; clear H;
      repeat match goal with
             | Hx : _ && true = true |- _ => rewrite andb_true_r in Hx
             end;
      do 5 eexists; split; [reflexivity|];
      split; [first [left; split; assumption | right; split; assumption]|];
      split; [assumption|]; split; [assumption | lia]. }
  destruct Hw as (c1 & c2 & c3 & c4 & rest & -> & Hc & H3 & H4 & ->).
  exists [c1; c2; c3; c4], rest. split; [reflexivity|]. split; [|reflexivity].
  exists c3, c4. split; [|auto].
  destruct Hc as [[Ha Hb]|[Ha Hb]].
  - apply lit_1 in Ha. apply lit_9 in Hb. subst. now left.
  - apply lit_2 in Ha. apply lit_0 in Hb. subst. now right.
Qed.

Lemma search_from_found (r : Re.regex) (s : str) :
  forall pos prev b e cs,
    Re.search_from r pos prev s = Some (b, e, cs) ->
    exists pre s' prev',
      s = pre ++ s' /\ b = pos + List.length pre
      /\ Re.match_here r b prev' s' = Some (e, cs).
Proof.
  induction s as [|c s IH]; intros pos prev b e cs H; simpl in H.
  - destruct (Re.match_here r pos prev []) as [[e' cs']|] eqn:E; [|discriminate].
    injection H as <- <- <-. exists [], [], prev. simpl. rewrite Nat.add_0_r. auto.
  - destruct (Re.match_here r pos prev (c :: s)) as [[e' cs']|] eqn:E.
    + injection H as <- <- <-. exists [], (c :: s), prev. simpl.
      rewrite Nat.add_0_r. auto.
    + apply IH in H as (pre & s' & prev' & -> & -> & Hm).
      exists (c :: pre), s', prev'. simpl. split; [reflexivity|].
      split; [lia | exact Hm].
Qed.

Lemma digit_value (c : ascii) :
  is_decimal c = true -> (0 <= Z.of_N (code c - 48) <= 9)%Z.
Proof.
  unfold is_decimal, between. intros H. apply andb_true_iff in H as [H1 H2].
  apply N.leb_le in H1, H2. lia.
Qed.

(** The year that [_detect_multiple_criteria] reads. *)
Lemma year_value (w : str) :
  year_digits w -> exists y, py_int (Some w) = Ok y /\ (1900 <= y <= 2099)%Z.
Proof.
  intros (c3 & c4 & Hw & H3 & H4).
  pose proof (digit_value _ H3) as D3. pose proof (digit_value _ H4) as D4.
  destruct Hw as [-> | ->]; unfold py_int; cbn [forallb];
    rewrite H3, H4; cbn [andb is_decimal];
    eexists; (split; [reflexivity|]); cbn [fold_left];
    change (Z.of_N (code "1" - 48)) with 1%Z;
    change (Z.of_N (code "9" - 48)) with 9%Z;
    change (Z.of_N (code "2" - 48)) with 2%Z;
    change (Z.of_N (code "0" - 48)) with 0%Z; lia.
Qed.

Lemma year_search (text : str) :
  match Re.search (lit "\b(19|20)\d{2}\b") text with
  | Ok (Some m) => year_digits (Re.group0 m)
  | Ok None => True
  | Raise _ => False
  end.
Proof.
  unfold Re.search. rewrite compile_year.
  destruct (Re.search_from year_re 0 None text) as [[[b e] cs]|] eqn:E; [|exact I].
  apply search_from_found in E as (pre & s' & prev' & -> & -> & Hm).
  apply year_match_here in Hm as (w & rest & -> & Hw & ->).
  unfold Re.group0, slice. cbn [Re.m_string Re.m_start Re.m_end].
  rewrite !Nat.add_0_l, skipn_pre.
  replace (List.length pre + 4 - List.length pre) with 4 by lia.
  destruct Hw as (c3 & c4 & [-> | ->] & H3 & H4); simpl;
    exists c3, c4; auto.
Qed.

(** X16: [_detect_multiple_criteria] never fails, and every entry of
    its result is sound: the year is an integer from 1900 to 2099, the
    genre is one of the eleven genres and the author one of the authors
    of the table, each contained in the lower-cased text, the bestseller
    flag is a boolean, and no key occurs twice. *)
Theorem criteria_are_sound (text : str) :
  exists criteria,
    _detect_multiple_criteria text = Ok criteria
    /\ (forall v, In ("year"%string, v) criteria ->
        exists y, v = CInt y /\ (1900 <= y <= 2099)%Z)
    /\ (forall v, In ("genre"%string, v) criteria ->
        exists g, v = CStr g /\ In g criteria_genres
                  /\ contains (lower text) g = true)
    /\ (forall v, In ("author"%string, v) criteria ->
        exists a, v = CStr a /\ In a canonical
                  /\ contains (lower text) a = true)
    /\ (forall v, In ("bestseller"%string, v) criteria -> exists b, v = CBool b)
    /\ NoDup (map fst criteria).
Proof.
  unfold _detect_multiple_criteria.
  pose proof (year_search text) as Hy.
  destruct (Re.search (lit "\b(19|20)\d{2}\b") text) as [[m|]|e]; [| |destruct Hy].
  - apply year_value in Hy as (y & Hy & Hrange). cbn [bind]. rewrite Hy. cbn [bind].
    destruct (find (fun g => contains (lower text) g) criteria_genres) as [g|] eqn:Eg;
      [apply find_some in Eg as [Hg1 Hg2]|];
      (destruct (find (fun a => contains (lower text) a) (map fst famous_authors))
         as [a|] eqn:Ea; [apply find_some in Ea as [Ha1 Ha2]|]);
      destruct (any_in (lower text) _); try destruct (any_in (lower text) _);
      eexists; (split; [reflexivity|]);
      cbn [app map fst In];
      repeat split;
      try (intros v Hv;
           repeat (destruct Hv as [Hv|Hv]; [try discriminate Hv; injection Hv as <-|]);
           try destruct Hv; eauto; fail);
      repeat constructor; cbn [In]; intuition discriminate.
  - cbn [bind].
    destruct (find (fun g => contains (lower text) g) criteria_genres) as [g|] eqn:Eg;
      [apply find_some in Eg as [Hg1 Hg2]|];
      (destruct (find (fun a => contains (lower text) a) (map fst famous_authors))
         as [a|] eqn:Ea; [apply find_some in Ea as [Ha1 Ha2]|]);
      destruct (any_in (lower text) _); try destruct (any_in (lower text) _);
      eexists; (split; [reflexivity|]);
      cbn [app map fst In];
      repeat split;
      try (intros v Hv;
           repeat (destruct Hv as [Hv|Hv]; [try discriminate Hv; injection Hv as <-|]);
           try destruct Hv; eauto; fail);
      repeat constructor; cbn [In]; intuition discriminate.
Qed.

(** X17: [process_complex_query] fails exactly when [process] does, with
    the same exception; otherwise it returns the intent of [process], the
    criteria and the analysis of the text, and suggestions only for the
    intent "unknown".  The suggestions are three at most, each one asking
    for a genre or an author whose similarity ratio to the lower-cased
    text exceeds 0.6. *)
Theorem complex_query_composes (text : str) :
  match process text with
  | Raise e => process_complex_query text = Raise e
  | Ok i =>
      exists r,
        process_complex_query text = Ok r
        /\ primary_intent r = i
        /\ _detect_multiple_criteria text = Ok (multiple_criteria r)
        /\ input_analysis r = _validate_input text
        /\ (suggestions r <> [] -> name i = "unknown"%string)
        /\ List.length (suggestions r) <= 3
        /\ forall s, In s (suggestions r) ->
             exists n, s = did_you_mean n
                       /\ In n (map fst genre_synonyms ++ canonical)
                       /\ (0.6 < ratio (lower text) n)%Q
  end.
Proof.
  unfold process_complex_query.
  destruct (process text) as [i|e]; [|reflexivity]. cbn [bind].
  destruct (criteria_are_sound text) as (c & Hc & _). rewrite Hc. cbn [bind].
  eexists. split; [reflexivity|]. cbn [primary_intent multiple_criteria input_analysis suggestions].
  repeat split.
  - destruct (String.eqb (name i) "unknown") eqn:E.
    + intros _. now apply String.eqb_eq.
    + intros H. now contradiction H.
  - destruct (String.eqb (name i) "unknown"); [|simpl; lia].
    unfold _generate_suggestions. rewrite length_firstn. lia.
  - intros s Hs. destruct (String.eqb (name i) "unknown"); [|destruct Hs].
    unfold _generate_suggestions in Hs. apply SortFacts.firstn_In in Hs.
    apply in_app_or in Hs as [Hs|Hs]; apply in_map_iff in Hs as (n & <- & Hn);
      apply filter_In in Hn as [Hin Hr]; apply SortFacts.Qltb_lt in Hr;
      exists n; (split; [reflexivity|]); (split; [|exact Hr]);
      apply in_or_app; [left | right]; exact Hin.
Qed.

End CriteriaFacts.

(** ** The assistant *)

Module ChatFacts.

Import Catalog Engine NLP NLPTools Chat Session Vocabulary Schema.
Import StrFacts SortFacts EngineFacts PipelineFacts ConfidenceFacts RankingFacts ProcessFacts.

(** The books that the engine recommends are books of the catalog. *)
Lemma similar_from_catalog (books : list Book) (t : str) (limit : Z) :
  from_catalog books (recommend_similar_books books t limit).
Proof.
  intros b H. unfold recommend_similar_books in H.
  destruct (find_book_by_title books t) as [ref|]; [|destruct H].
  unfold similar_to in H. apply ranked_In in H.
  apply in_app_or in H. destruct H as [H|H];
    apply filter_In in H; destruct H as [H _];
    apply filter_In in H; destruct H as [H _];
    apply filter_In in H; now destruct H.
Qed.

Lemma mood_from_catalog (books : list Book) (m : str) (t : option str) (limit : Z) :
  from_catalog books (recommend_by_mood books m t limit).
Proof.
  intros b H. unfold recommend_by_mood in H. apply ranked_In in H.
  destruct (mem (lower m) negative_moods).
  - apply filter_In in H. destruct H as [H _]. apply filter_In in H. now destruct H.
  - apply filter_In in H. now destruct H.
Qed.

Lemma occasion_from_catalog (books : list Book) (o : str) (t : option str) (limit : Z) :
  from_catalog books (recommend_by_occasion books o t limit).
Proof.
  intros b H. unfold recommend_by_occasion in H. apply ranked_In in H.
  destruct (mem (lower o) relaxing_occasions).
  - apply filter_In in H. destruct H as [H _]. apply filter_In in H. now destruct H.
  - apply filter_In in H. now destruct H.
Qed.

Lemma filtered_from_catalog (books : list Book) (p : Book -> bool) (limit : Z) :
  from_catalog books (take limit (sorted_by_rating (filter p books))).
Proof.
  intros b H. apply ranked_In in H. apply filter_In in H. now destruct H.
Qed.

Lemma similar_ranked (books : list Book) (t : str) :
  ranked_within 5 (recommend_similar_books books t 5).
Proof.
  unfold recommend_similar_books.
  destruct (find_book_by_title books t).
  - apply take_ranked. lia.
  - split; [constructor | simpl; lia].
Qed.

Lemma if_any_cases (found : list Book) (a b : Reply) :
  if_any found a b = a \/ if_any found a b = b.
Proof. destruct found; [now right | now left]. Qed.

Lemma reply_to_known (books : list Book) (message : str) (i : Intent) :
  In (name i) (map fst intent_patterns) ->
  map fst (entities i) = expected_keys (name i) ->
  forallb well_typed (entities i) = true ->
  served books (reply_to books message i).
Proof.
  destruct i as [n c es]. simpl. intros Hin Hk Ht.
  repeat (destruct Hin as [Hn|Hin]; [subst n|]); try destruct Hin;
    cbn in Hk;
    repeat match type of Hk with
           | map fst ?l = _ :: _ =>
               let k := fresh "k" in let v := fresh "v" in
               destruct l as [|[k v] l]; [discriminate|]; simpl in Hk;
               injection Hk as -> Hk
           | map fst ?l = [] => destruct l; [clear Hk|discriminate]
           end;
    cbn in Ht;
    repeat match type of Ht with
           | context [match ?v with VStr _ => _ | VInt _ => _ end] =>
               destruct v; cbn in Ht; try discriminate
           end;
    unfold reply_to; cbn -[recommend_by_genre recommend_by_author recommend_similar_books
                             recommend_by_year recommend_bestsellers recommend_by_mood
                             recommend_by_occasion mem lit mood_responses occasion_responses].
  all: try match goal with
       | |- served _ (Ok (if_any ?f ?a ?b, _)) =>
           exists (if_any f a b), f;
           split; [reflexivity|]; split; [|split; [|destruct (if_any_cases f a b) as [-> | ->]; split; discriminate]]
       end.
  all: try (apply take_ranked; lia).
  all: try apply filtered_from_catalog.
  all: try apply similar_ranked.
  all: try apply similar_from_catalog.
  all: try (eexists; eexists; split; [reflexivity|]; split; [apply take_ranked; lia|];
            split; [apply filtered_from_catalog | split; discriminate]).
  - destruct (recommend_by_mood books s (Some s0) 5) as [|b0 l0] eqn:E.
    + exists MoodNotFound, []. repeat split; try discriminate; try constructor; simpl; try lia.
      intros b [].
    + cbn -[mem lit mood_responses]. eexists; exists (b0 :: l0). split; [reflexivity|].
      rewrite <- E. split; [apply take_ranked; lia|]. split; [apply mood_from_catalog|].
      destruct (mem (lower s) mood_responses); split; discriminate.
  - destruct (recommend_by_occasion books s (Some s0) 5) as [|b0 l0] eqn:E.
    + eexists; exists []. split; [reflexivity|].
      repeat split; try discriminate; try constructor; simpl; try lia.
      intros b [].
    + cbn -[mem lit occasion_responses]. eexists; exists (b0 :: l0). split; [reflexivity|].
      rewrite <- E. split; [apply take_ranked; lia|]. split; [apply occasion_from_catalog|].
      destruct (mem (lower s) occasion_responses); split; discriminate.
Qed.

Lemma table_names_known :
  forallb (fun n => negb (String.eqb n "unknown")) (map fst intent_patterns) = true.
Proof. reflexivity. Qed.

Lemma known_not_unknown (n : string) :
  In n (map fst intent_patterns) -> String.eqb n "unknown" = false.
Proof.
  intros H. pose proof table_names_known as T. rewrite forallb_forall in T.
  apply T in H. now apply negb_true_iff in H.
Qed.

(** X18: [process_chat_message] fails exactly when the pipeline fails,
    and then with the exception of the pipeline; otherwise its response
    bears the name and the confidence of the intent of the pipeline, and
    its books are books of the catalog, five at most, in descending
    order of rating. *)
Theorem chat_response_follows_intent (books : list Book) (self : BookstoreAI)
    (message : str) :
  match process message, snd (process_chat_message books self message) with
  | Raise e, r => r = Raise e
  | Ok i, Ok r =>
      intent r = name i
      /\ Chat.confidence r = NLP.confidence i
      /\ ranked_within 5 (recommended_books r)
      /\ from_catalog books (recommended_books r)
  | Ok _, Raise _ => False
  end.
Proof.
  unfold process_chat_message.
  destruct (process message) as [i|e] eqn:E; [|reflexivity].
  cbn [snd].
  assert (H : served books (reply_to books message i)
              \/ reply_to books message i = Ok (NotUnderstood, [])).
  { destruct (process_shape _ E) as [-> | (Hn & Hk & Ht)].
    - right. reflexivity.
    - left. now apply reply_to_known. }
  destruct H as [(reply & found & -> & Hr & Hc & _) | ->]; cbn.
  - repeat split; try assumption; apply Hr.
  - repeat split; try constructor; simpl; try lia. intros b [].
Qed.

(** X19: the help texts are for the unknown intent only, and of the two
    only one is ever sent: a response never holds the text for a partly
    understood question; it holds the text for a question that was not
    understood exactly when its intent is "unknown", and then it holds
    no book and the confidence 0. *)
Theorem help_text_for_unknown_only (books : list Book) (self : BookstoreAI)
    (message : str) :
  match snd (process_chat_message books self message) with
  | Ok r =>
      response r <> PartlyUnderstood
      /\ (response r = NotUnderstood <-> intent r = "unknown"%string)
      /\ (intent r = "unknown"%string ->
          recommended_books r = [] /\ Chat.confidence r = 0%Q)
  | Raise _ => True
  end.
Proof.
  unfold process_chat_message.
  destruct (process message) as [i|e] eqn:E; [|exact I].
  cbn [snd].
  destruct (process_shape _ E) as [-> | (Hn & Hk & Ht)].
  - cbn. repeat split; try discriminate; reflexivity.
  - destruct (reply_to_known books message i Hn Hk Ht)
      as (reply & found & -> & _ & _ & Hp & Hu).
    cbn. apply known_not_unknown in Hn. apply String.eqb_neq in Hn.
    split; [exact Hp|]. split.
    + split; intros Hx; contradiction.
    + intros Hx. contradiction.
Qed.

(** The counters and the threshold that every call keeps. *)
Lemma clamp_bounds (threshold : Q) :
  (0.1 <= py_max 0.1 (py_min threshold 0.9) <= 0.9)%Q.
Proof.
  unfold py_max, py_min.
  destruct (Qltb 0.9 threshold) eqn:E1.
  - cbn. split; discriminate.
  - apply Qltb_ge in E1.
    destruct (Qltb 0.1 threshold) eqn:E2.
    + apply Qltb_lt in E2. split; [now apply Qlt_le_weak | exact E1].
    + split; discriminate.
Qed.

Lemma call_consistent (books : list Book) (self : BookstoreAI) (c : Call) :
  consistent self -> consistent (call books self c).
Proof.
  unfold consistent. destruct self as [nlp [t s a u]]. cbn.
  intros (Hu & Ha & Hs & Ht & Hl & Hh).
  destruct c as [message|thr adv|]; cbn -[process].
  - unfold process_chat_message. cbn -[process].
    destruct (process message) as [i|e] eqn:E; cbn; [|repeat split; try assumption; lia].
    destruct (process_shape _ E) as [-> | (Hn & _)].
    + cbn. assert (Hq : Qle_bool (confidence_threshold nlp) 0 = false).
      { destruct (Qle_bool (confidence_threshold nlp) 0) eqn:Q; [|reflexivity].
        apply Qle_bool_iff in Q. exfalso.
        apply (Qlt_not_le 0 0.1); [reflexivity|].
        now apply Qle_trans with (confidence_threshold nlp). }
      rewrite Hq. cbn. repeat split; try assumption; lia.
    + rewrite known_not_unknown by exact Hn.
      destruct (Qle_bool _ _); cbn; repeat split; try assumption; lia.
  - repeat split; try assumption.
    + destruct thr as [x|]; destruct adv; cbn; try assumption; apply clamp_bounds.
    + destruct thr as [x|]; destruct adv; cbn; try assumption; apply clamp_bounds.
  - repeat split; try assumption; lia.
Qed.

(** X20: whatever calls an assistant has served since its construction
    (messages, answered or failed, changes of settings, resets), its
    counters are consistent: no counter is negative, every unknown
    intent is counted as advanced processing, the two kinds of
    processing together do not exceed the requests, and the threshold
    lies between 0.1 and 0.9. *)
Theorem counters_stay_consistent (books : list Book) (calls : list Call) :
  consistent (after books calls).
Proof.
  unfold after.
  assert (H : consistent __init__).
  { unfold consistent. cbn. repeat split; try lia; discriminate. }
  revert H. generalize __init__ as self.
  induction calls as [|c calls IH]; intros self H; simpl; [exact H|].
  apply IH. now apply call_consistent.
Qed.

Lemma call_balanced (books : list Book) (self : BookstoreAI) (c : Call) :
  classified c = true -> balanced self -> balanced (call books self c).
Proof.
  unfold balanced. destruct self as [nlp [t s a u]]. cbn.
  destruct c as [message|thr adv|]; cbn -[process]; intros Hc H.
  - unfold process_chat_message. cbn -[process].
    destruct (process message) as [i|e]; [|discriminate]. cbn.
    destruct (Qle_bool _ _), (String.eqb _ _); cbn; lia.
  - exact H.
  - reflexivity.
Qed.

(** X21: as long as the pipeline has returned an intent for every
    message, every request is counted once as simple or as advanced
    processing: the two counters add up to the number of requests,
    whatever settings were changed and whatever resets were made in
    between. *)
Theorem classified_requests_counted_once (books : list Book) (calls : list Call) :
  forallb classified calls = true -> balanced (after books calls).
Proof.
  unfold after.
  assert (H : balanced __init__) by reflexivity.
  revert H. generalize __init__ as self.
  induction calls as [|c calls IH]; intros self H Hc; simpl in *; [exact H|].
  apply andb_true_iff in Hc. destruct Hc as [Hc Hcs].
  apply IH; [|exact Hcs]. now apply call_balanced.
Qed.

Lemma classified_requests_counted_once_witness :
  let calls := [Ask (lit "bestsellers"); Configure (Some 0.95%Q) None;
                Ask (lit "xyz"); Reset; Ask (lit "quero ler terror")] in
  forallb classified calls = true /\ balanced (after [] calls).
Proof.
  cbv zeta. split; [vm_compute; reflexivity|].
  apply classified_requests_counted_once. vm_compute. reflexivity.
Defined.

End ChatFacts.
